(** * Logger: a shallow embedding of logger.c / logger.h

    The C translation unit is compiled in one of two modes:
    [LOGGER_ENABLED] (formatted, levelled logger, module [Logger]) or
    [HARD_FAULT_LOGGER_ENABLED] (file:line breadcrumbs kept in
    [logger_buffer], module [HardFault]).  Both share the globals and the
    accessors of the first half of logger.c.

    Conventions of the embedding.
    - A [char] is an [ascii]; an array in memory is the [list ascii] of its
      bytes; a [const char *] argument is the list of the characters before
      its terminator.
    - C integers are [Z].  [int] values stay far below [INT_MAX] (they are
      lengths of short strings and line numbers), so [int] arithmetic is
      plain [Z] arithmetic; [size_t] and [uint8_t] arithmetic wraps and the
      wrap-around is written out.
    - Library calls follow ISO C: [snprintf] writes at most [n - 1]
      characters and a terminator and returns the untruncated length;
      [strchr] / [strrchr] / ["%s"] read a string up to its terminator.
    - An access outside the object it is aimed at is undefined behaviour:
      the run ends in [Fault].  A loop that has not finished when the fuel
      is used up ends in [Timeout].
    - One such access is made by every call of the fault logger: the array
      [separator] has no terminator and is printed with ["%s"].  So that
      the calls can be followed further, this read is given the result it
      has where the memory behind the array can be read: those bytes are an
      argument of the call ([behind]), and the read goes on through them to
      the first zero byte. *)

From Stdlib Require Import Ascii String ZArith List Bool Lia.
From Stdlib Require Import SpecFloat.
Import ListNotations.
Local Open Scope Z_scope.

(** ** Outcomes *)

Inductive outcome (A : Type) : Type :=
| Done (a : A)
| Fault
| Timeout.
Arguments Done {A} a.
Arguments Fault {A}.
Arguments Timeout {A}.

Definition bind {A B : Type} (m : outcome A) (k : A -> outcome B) : outcome B :=
  match m with
  | Done a => k a
  | Fault => Fault
  | Timeout => Timeout
  end.

Notation "x <- m ;; k" := (bind m (fun x => k))
  (at level 61, m at next level, right associativity).
Notation "' p <- m ;; k" := (bind m (fun x => match x with p => k end))
  (at level 61, p pattern, m at next level, right associativity).

Definition of_option {A : Type} (o : option A) : outcome A :=
  match o with
  | Some a => Done a
  | None => Fault
  end.

(** ** Target data model: the two widths of a pointer and of [size_t] *)

Inductive target : Type := ILP32 | LP64.

Definition sizeof_ptr (tg : target) : Z :=
  match tg with ILP32 => 4 | LP64 => 8 end.

Definition size_t_modulus (tg : target) : Z := 2 ^ (8 * sizeof_ptr tg).

(** Result of a [size_t] computation whose mathematical value is [z]. *)
Definition to_size_t (tg : target) (z : Z) : Z := z mod size_t_modulus tg.

(** Conversion of an [int] operand to [size_t] (usual arithmetic
    conversions in a mixed [int] / [size_t] expression). *)
Definition size_t_of_int (tg : target) (z : Z) : Z :=
  if 0 <=? z then z else z + size_t_modulus tg.

Definition to_uint8 (z : Z) : Z := z mod 256.

(** ** Characters, strings and memory *)

Definition NUL : ascii := "000"%char.

Definition str (s : string) : list ascii := list_ascii_of_string s.

Definition len (s : list ascii) : Z := Z.of_nat (length s).

(** [strlen] on an array: [None] when no terminator lies inside it. *)
Fixpoint strlen (m : list ascii) : option nat :=
  match m with
  | [] => None
  | c :: m' => if Ascii.eqb c NUL then Some O else option_map S (strlen m')
  end.

(** The string stored at the start of an array. *)
Definition c_str (m : list ascii) : outcome (list ascii) :=
  match strlen m with
  | Some n => Done (firstn n m)
  | None => Fault
  end.

(** The bytes of a memory area that come before its first zero byte (all
    of them when it holds none): what a read that starts in this area and
    stops at a terminator gets. *)
Fixpoint until_NUL (m : list ascii) : list ascii :=
  match m with
  | [] => []
  | c :: m' => if Ascii.eqb c NUL then [] else c :: until_NUL m'
  end.

(** Offset of the first / last occurrence of [c] in a string. *)
Fixpoint index_of (c : ascii) (s : list ascii) : option nat :=
  match s with
  | [] => None
  | x :: s' => if Ascii.eqb x c then Some O else option_map S (index_of c s')
  end.

Fixpoint rindex_of (c : ascii) (s : list ascii) : option nat :=
  match s with
  | [] => None
  | x :: s' =>
      match rindex_of c s' with
      | Some i => Some (S i)
      | None => if Ascii.eqb x c then Some O else None
      end
  end.

(** [strchr(m, c)] and [strrchr(m, c)] for [c <> 0], as an offset into [m]
    ([None] is the null pointer). *)
Definition strchr (m : list ascii) (c : ascii) : outcome (option nat) :=
  s <- c_str m ;; Done (index_of c s).

Definition strrchr (m : list ascii) (c : ascii) : outcome (option nat) :=
  s <- c_str m ;; Done (rindex_of c s).

(** Overwrite [data] into [m] from offset [off]. *)
Definition mem_write (m : list ascii) (off : nat) (data : list ascii) : list ascii :=
  firstn off m ++ data ++ skipn (off + length data) m.

(** [memset(m + off, c, n)] *)
Definition memset (m : list ascii) (off : Z) (c : ascii) (n : Z) : list ascii :=
  mem_write m (Z.to_nat off) (repeat c (Z.to_nat n)).

(** [memcpy(m, m + src, n)]: the destination lies below the source, the
    bytes are copied in ascending order, so every byte is read before it is
    overwritten. *)
Definition memcpy_down (m : list ascii) (src : Z) (n : Z) : list ascii :=
  mem_write m O (firstn (Z.to_nat n) (skipn (Z.to_nat src) m)).

(** The first [n] characters of [s], all of [s] when it is shorter. *)
Fixpoint truncate (n : Z) (s : list ascii) : list ascii :=
  match s with
  | [] => []
  | c :: s' => if 0 <? n then c :: truncate (n - 1) s' else []
  end.

(** [snprintf(m + off, size, ...)] where the directives render to [s]:
    the new memory and the returned length. *)
Definition snprintf (m : list ascii) (off size : Z) (s : list ascii)
  : outcome (list ascii * Z) :=
  if (off <? 0) || (len m <? off) then Fault
  else if size =? 0 then Done (m, len s)
  else
    let data := truncate (size - 1) s ++ [NUL] in
    if off + len data <=? len m
    then Done (mem_write m (Z.to_nat off) data, len s)
    else Fault.

(** ** Number rendering *)

Definition digit (d : Z) : ascii := ascii_of_nat (48 + Z.to_nat d).

Fixpoint dec_fuel (fuel : nat) (n : Z) (acc : list ascii) : list ascii :=
  match fuel with
  | O => acc
  | S f =>
      let acc' := digit (n mod 10) :: acc in
      if n <? 10 then acc' else dec_fuel f (n / 10) acc'
  end.

(** Decimal digits of [n >= 0]; a number has no more decimal digits than
    binary ones. *)
Definition decimal (n : Z) : list ascii :=
  dec_fuel (S (Z.to_nat (Z.log2 n))) n [].

(** ["%d"] of an [int]. *)
Definition fmt_d (n : Z) : list ascii :=
  if n <? 0 then str "-" ++ decimal (- n) else decimal n.

(** ["%u"] handed an [int]: the value is read as [unsigned int]. *)
Definition fmt_u (n : Z) : list ascii := decimal (n mod 2 ^ 32).

Fixpoint log10_fuel (fuel : nat) (n : Z) : Z :=
  match fuel with
  | O => 0
  | S f => if n <? 10 then 0 else 1 + log10_fuel f (n / 10)
  end.

(** [(int) log10(x)] for an integer [x >= 1]; [log10] is taken as the real
    logarithm, the rounding of the floating-point routine is not modelled. *)
Definition floor_log10 (n : Z) : Z :=
  log10_fuel (S (Z.to_nat (Z.log2 n))) n.

(** Nearest integer to [n / d], ties to even. *)
Definition round_half_even (n d : Z) : Z :=
  let q := n / d in
  let r := n mod d in
  if 2 * r <? d then q
  else if d <? 2 * r then q + 1
  else if Z.even q then q else q + 1.

(** [|x| * 10] rounded to an integer, for [|x| = m * 2^e]. *)
Definition tenths (m : positive) (e : Z) : Z :=
  if 0 <=? e then 10 * Z.pos m * 2 ^ e
  else round_half_even (10 * Z.pos m) (2 ^ (- e)).

Definition sign_str (s : bool) : list ascii :=
  if s then str "-" else [].

(** ["%0.1f"] of a floating-point value. *)
Definition fmt_0_1f (x : spec_float) : list ascii :=
  match x with
  | S754_zero s => sign_str s ++ str "0.0"
  | S754_infinity s => sign_str s ++ str "inf"
  | S754_nan => str "nan"
  | S754_finite s m e =>
      let t := tenths m e in
      sign_str s ++ decimal (t / 10) ++ str "." ++ decimal (t mod 10)
  end.

(** The [float] constant [-1.0f]. *)
Definition minus_one : spec_float := S754_finite true 8388608 (-23).

(** ** Globals and accessors (both modes) *)

Definition LOGGER_BUFFER_MAX_LENGTH : Z := 256.
Definition APP_NAME_SIZE : Z := 50.

Inductive logger_levels_t : Type := DBG | INFO | WARN | ERR | FATAL.

Definition level_to_int (l : logger_levels_t) : Z :=
  match l with DBG => 0 | INFO => 1 | WARN => 2 | ERR => 3 | FATAL => 4 end.

(** The type of a clock function: the value the registered clock returns. *)
Definition GetMillisecondsFunction : Type := unit -> spec_float.

(** The type of a sink function: the registered sink is external
    code; it is identified by its address, and every call through it is
    recorded. *)
Definition LoggerPrintfFunction : Type := nat.

Record sink_call : Type := {
  sc_fn : LoggerPrintfFunction;
  sc_bytes : list ascii;   (* the [len] bytes at [p] *)
  sc_len : Z               (* the [uint8_t len] argument *)
}.

Record logger_state : Type := {
  logger_buffer : list ascii;                           (* char[256] *)
  currentLogLevel : logger_levels_t;
  app_name : list ascii;                                (* char[50] *)
  pfGetMilliseconds : option GetMillisecondsFunction;   (* NULL = None *)
  pfLoggerPrintf : option LoggerPrintfFunction;         (* NULL = None *)
  sink_calls : list sink_call                           (* oldest first *)
}.

Definition zero_fill (n : Z) : list ascii := repeat NUL (Z.to_nat n).

(** The state the program starts in (static initialisers). *)
Definition initial_state : logger_state := {|
  logger_buffer := zero_fill LOGGER_BUFFER_MAX_LENGTH;
  currentLogLevel := WARN;
  app_name := str "MyApp" ++ zero_fill (APP_NAME_SIZE - 5);
  pfGetMilliseconds := None;
  pfLoggerPrintf := None;
  sink_calls := []
|}.

Definition set_buffer (st : logger_state) (b : list ascii) : logger_state := {|
  logger_buffer := b;
  currentLogLevel := currentLogLevel st;
  app_name := app_name st;
  pfGetMilliseconds := pfGetMilliseconds st;
  pfLoggerPrintf := pfLoggerPrintf st;
  sink_calls := sink_calls st
|}.

Definition GetMilliseconds (st : logger_state) : spec_float :=
  match pfGetMilliseconds st with
  | Some f => f tt
  | None => minus_one
  end.

Definition LoggerPrintf (st : logger_state) (p : list ascii) (n : Z) : logger_state :=
  match pfLoggerPrintf st with
  | Some f => {|
      logger_buffer := logger_buffer st;
      currentLogLevel := currentLogLevel st;
      app_name := app_name st;
      pfGetMilliseconds := pfGetMilliseconds st;
      pfLoggerPrintf := pfLoggerPrintf st;
      sink_calls := sink_calls st
                    ++ [{| sc_fn := f; sc_bytes := firstn (Z.to_nat n) p; sc_len := n |}]
    |}
  | None => st
  end.

Definition LoggerRegisterAppFunctions (st : logger_state)
  (pGetMilliseconds : option GetMillisecondsFunction)
  (pLoggerPrintf : option LoggerPrintfFunction) : logger_state := {|
  logger_buffer := logger_buffer st;
  currentLogLevel := currentLogLevel st;
  app_name := app_name st;
  pfGetMilliseconds := pGetMilliseconds;
  pfLoggerPrintf := pLoggerPrintf;
  sink_calls := sink_calls st
|}.

(** The pointer [app_name]: the array it points to. *)
Definition GetAppName (st : logger_state) : list ascii := app_name st.

(** [strncpy(dst, src, n)] into an array [dst]: [n] bytes are written, the
    characters of [src] and then zeros. *)
Definition strncpy (dst src : list ascii) (n : Z) : list ascii :=
  let k := Z.to_nat n in
  mem_write dst O (firstn k src ++ repeat NUL (k - length (firstn k src))).

Definition SetAppName (st : logger_state) (appName : list ascii) : logger_state :=
  let a1 := strncpy (app_name st) appName (APP_NAME_SIZE - 1) in
  let a2 := mem_write a1 (Z.to_nat (APP_NAME_SIZE - 1)) [NUL] in
  {|
    logger_buffer := logger_buffer st;
    currentLogLevel := currentLogLevel st;
    app_name := a2;
    pfGetMilliseconds := pfGetMilliseconds st;
    pfLoggerPrintf := pfLoggerPrintf st;
    sink_calls := sink_calls st
  |}.

Definition GetCurrentLogLevel (st : logger_state) : logger_levels_t :=
  currentLogLevel st.

Definition SetCurrentLogLevel (st : logger_state) (level : logger_levels_t)
  : logger_state := {|
  logger_buffer := logger_buffer st;
  currentLogLevel := level;
  app_name := app_name st;
  pfGetMilliseconds := pfGetMilliseconds st;
  pfLoggerPrintf := pfLoggerPrintf st;
  sink_calls := sink_calls st
|}.

(** [memcpy(buffer, &logger_buffer, sizeof(logger_buffer))] *)
Definition GetLoggerBuffer (st : logger_state) : list ascii :=
  firstn (Z.to_nat LOGGER_BUFFER_MAX_LENGTH) (logger_buffer st).

(** [lastSlash > lastBackslash ? lastSlash : lastBackslash], the null
    pointer comparing below every pointer into the string. *)
Definition later_of (a b : option nat) : option nat :=
  match a, b with
  | Some i, Some j => if (j <? i)%nat then Some i else Some j
  | Some i, None => Some i
  | None, _ => b
  end.

Definition GetFileNameFromPath (path : list ascii) : list ascii :=
  let lastSlash := rindex_of "/"%char path in
  let lastBackslash := rindex_of "\"%char path in
  match later_of lastSlash lastBackslash with
  | Some i => skipn (S i) path
  | None => path
  end.

(** ** Mode [LOGGER_ENABLED]: the formatting logger *)

Module Logger.

(** The global [current_logger_level] of this mode is never read and is
    left out. *)

Definition ESC : ascii := ascii_of_nat 27.
Definition LF : ascii := ascii_of_nat 10.
Definition CR : ascii := ascii_of_nat 13.

Record logger_entity_t : Type := {
  level : logger_levels_t;
  name : list ascii
}.

Record logger_desc_t : Type := {
  entity : logger_entity_t;
  color : list ascii
}.

Definition logger_array : list logger_desc_t := [
  {| entity := {| level := DBG; name := str "DBG" |};
     color := ESC :: str "[37;1m" |};
  {| entity := {| level := INFO; name := str "INFO" |};
     color := ESC :: str "[32;1m" |};
  {| entity := {| level := WARN; name := str "WARN" |};
     color := ESC :: str "[33;1m" |};
  {| entity := {| level := ERR; name := str "ERR" |};
     color := ESC :: str "[31;1m" |};
  {| entity := {| level := FATAL; name := str "FATAL" |};
     color := ESC :: str "[31;1m" |}
].

(** [logger_array[i]] for an [int] index. *)
Definition logger_array_at (i : Z) : outcome logger_desc_t :=
  if i <? 0 then Fault else of_option (nth_error logger_array (Z.to_nat i)).

(** The string [RESET_NEWLINE] points to. *)
Definition RESET_NEWLINE : list ascii := [LF; CR; ESC] ++ str "[0m".

(** [sizeof(RESET_NEWLINE)]: [RESET_NEWLINE] is a [const char *]. *)
Definition sizeof_RESET_NEWLINE (tg : target) : Z := sizeof_ptr tg.

(** What ["%s%s[%0.1f] : %s : %s : %s : %d -> "] renders to. *)
Definition preamble (st : logger_state) (d : logger_desc_t)
  (file function : list ascii) (line : Z) : outcome (list ascii) :=
  app <- c_str (GetAppName st) ;;
  Done (color d ++ app ++ str "[" ++ fmt_0_1f (GetMilliseconds st)
        ++ str "] : " ++ name (entity d)
        ++ str " : " ++ GetFileNameFromPath file
        ++ str " : " ++ function
        ++ str " : " ++ fmt_d line ++ str " -> ").

(** The [if (size > 0) { ... }] block: the message is rendered at
    [length] and the tracked length is advanced. *)
Definition render_message (tg : target) (buf : list ascii)
  (length size : Z) (msg : list ascii) : outcome (list ascii * Z) :=
  if size >? 0 then
    '(buf', written) <- snprintf buf length size msg ;;
    if written >? 0 then
      if size_t_of_int tg written >? size
      then Done (buf', length + size)
      else Done (buf', length + written)
    else Done (buf', length)
  else Done (buf, length).

(** The body of the [if] of [ZB_printf] up to the call of
    [LoggerPrintf]: the new [logger_buffer] and the final [length].
    [msg] is what [fmt] and the variable arguments render to. *)
Definition format_record (tg : target) (st : logger_state) (lvl : Z)
  (file function : list ascii) (line : Z) (msg : list ascii)
  : outcome (list ascii * Z) :=
  let buf0 := memset (logger_buffer st) 0 NUL LOGGER_BUFFER_MAX_LENGTH in
  d <- logger_array_at lvl ;;
  pre <- preamble st d file function line ;;
  '(buf1, length) <- snprintf buf0 0 LOGGER_BUFFER_MAX_LENGTH pre ;;
  let size :=
    to_size_t tg (LOGGER_BUFFER_MAX_LENGTH - sizeof_RESET_NEWLINE tg
                  - size_t_of_int tg length) in
  '(buf2, length') <- render_message tg buf1 length size msg ;;
  '(buf3, _) <- snprintf buf2 length'
                  (to_size_t tg (LOGGER_BUFFER_MAX_LENGTH
                                 - size_t_of_int tg length'))
                  RESET_NEWLINE ;;
  Done (buf3, length').

(** [ZB_printf(level, file, function, line, fmt, ...)].  The comparison
    with the threshold is the one of [int]; the levels of the enumeration
    are not negative, so reading them as unsigned gives the same result. *)
Definition ZB_printf (tg : target) (st : logger_state) (lvl : Z)
  (file function : list ascii) (line : Z) (msg : list ascii)
  : outcome logger_state :=
  if lvl >=? level_to_int (GetCurrentLogLevel st) then
    '(buf, length) <- format_record tg st lvl file function line msg ;;
    Done (LoggerPrintf (set_buffer st buf) buf
            (to_uint8 (size_t_of_int tg length + sizeof_RESET_NEWLINE tg)))
  else Done st.

(** The entry of [logger_array] for a level of the enumeration. *)
Definition desc_of (l : logger_levels_t) : logger_desc_t :=
  nth (Z.to_nat (level_to_int l)) logger_array
    {| entity := {| level := DBG; name := [] |}; color := [] |}.

End Logger.

(** ** Mode [HARD_FAULT_LOGGER_ENABLED]: the fault ring *)

Module HardFault.

(** [separator[0]] *)
Definition separator : ascii := "-"%char.
Definition sizeof_separator : Z := 1.

Definition capacity : Z := LOGGER_BUFFER_MAX_LENGTH.

Definition length_of_line (line : Z) : Z :=
  if line =? 0 then 1
  else (floor_log10 (Z.abs line) + 1) + (if line <? 0 then 1 else 0).

Definition new_log_length (file : list ascii) (line : Z) : Z :=
  len (GetFileNameFromPath file) + length_of_line line + sizeof_separator.

(** [strrchr(b, '-') == NULL ? 0 : strrchr(b, '-') - b + 1] *)
Definition length_of_stored_log (buf : list ascii) : outcome Z :=
  p <- strrchr buf separator ;;
  Done (match p with None => 0 | Some i => Z.of_nat i + 1 end).

(** [strchr(b, '-') == NULL ? 0 : strchr(b, '-') - b + 1] *)
Definition latest_stored_log_length (buf : list ascii) : outcome Z :=
  p <- strchr buf separator ;;
  Done (match p with None => 0 | Some i => Z.of_nat i + 1 end).

(** Condition of the second branch ("Unhandled statement"). *)
Definition stored_log_overflows (tg : target) (stored : Z) : bool :=
  size_t_of_int tg stored >? capacity.

(** Condition of the third branch and of the [do ... while]. *)
Definition no_room (tg : target) (new_len stored : Z) : bool :=
  size_t_of_int tg new_len >? to_size_t tg (capacity - size_t_of_int tg stored).

(** One pass through the body of the [do ... while]. *)
Definition evict_one (buf : list ascii) : outcome (list ascii * Z) :=
  latest <- latest_stored_log_length buf ;;
  let buf1 := memcpy_down buf latest (capacity - latest) in
  let buf2 := memset buf1 (capacity - latest) NUL latest in
  stored <- length_of_stored_log buf2 ;;
  Done (buf2, stored).

(** The [do ... while] loop. *)
Fixpoint evict (fuel : nat) (tg : target) (buf : list ascii) (new_len : Z)
  : outcome (list ascii * Z) :=
  match fuel with
  | O => Timeout
  | S fuel' =>
      '(buf', stored) <- evict_one buf ;;
      if no_room tg new_len stored
      then evict fuel' tg buf' new_len
      else Done (buf', stored)
  end.

(** What ["%s%u%s"] renders to.  The first ["%s"] prints the file name and
    ["%u"] the line.  The second ["%s"] is handed the array [separator],
    which holds the one character and no terminator: it prints the memory
    that starts there, the separator and the bytes [behind] it, up to the
    first zero byte. *)
Definition rendered (file : list ascii) (line : Z) (behind : list ascii)
  : list ascii :=
  GetFileNameFromPath file ++ fmt_u line ++ until_NUL (separator :: behind).

(** The token the call is meant to store: the rendering when a zero byte
    lies right behind [separator]. *)
Definition token (file : list ascii) (line : Z) : list ascii :=
  rendered file line [].

(** The closing [snprintf]. *)
Definition append (tg : target) (st : logger_state) (buf : list ascii)
  (stored : Z) (file : list ascii) (line : Z) (behind : list ascii)
  : outcome logger_state :=
  '(buf', _) <- snprintf buf stored
                  (to_size_t tg (LOGGER_BUFFER_MAX_LENGTH - size_t_of_int tg stored))
                  (rendered file line behind) ;;
  Done (set_buffer st buf').

(** [ZB_printf(file, line)], in a frame where the bytes [behind] follow
    the local array [separator]. *)
Definition ZB_printf (fuel : nat) (tg : target) (st : logger_state)
  (file : list ascii) (line : Z) (behind : list ascii) : outcome logger_state :=
  let new_len := new_log_length file line in
  stored <- length_of_stored_log (logger_buffer st) ;;
  if stored =? 0 then
    append tg st (memset (logger_buffer st) 0 NUL LOGGER_BUFFER_MAX_LENGTH)
      stored file line behind
  else if stored_log_overflows tg stored then
    Done (set_buffer st (memset (logger_buffer st) 0 NUL LOGGER_BUFFER_MAX_LENGTH))
  else if no_room tg new_len stored then
    '(buf, stored') <- evict fuel tg (logger_buffer st) new_len ;;
    append tg st buf stored' file line behind
  else
    append tg st (logger_buffer st) stored file line behind.

(** One call: its two arguments and the bytes behind [separator] at the
    time of the call. *)
Record call : Type := {
  call_file : list ascii;
  call_line : Z;
  call_behind : list ascii
}.

(** A sequence of calls, oldest first. *)
Fixpoint run (fuel : nat) (tg : target) (st : logger_state)
  (calls : list call) : outcome logger_state :=
  match calls with
  | [] => Done st
  | c :: rest =>
      st' <- ZB_printf fuel tg st (call_file c) (call_line c) (call_behind c) ;;
      run fuel tg st' rest
  end.

(** The separator-terminated tokens of a string, left to right; what
    follows the last separator is not a token. *)
Fixpoint tokens_aux (cur : list ascii) (s : list ascii) : list (list ascii) :=
  match s with
  | [] => []
  | c :: s' =>
      if Ascii.eqb c separator
      then (rev (c :: cur)) :: tokens_aux [] s'
      else tokens_aux (c :: cur) s'
  end.

(** The tokens an inspector reads from the buffer (a string). *)
Definition scan (buf : list ascii) : outcome (list (list ascii)) :=
  s <- c_str buf ;; Done (tokens_aux [] s).

End HardFault.

(** ** Vocabulary of the statements *)

Definition list_eqb (a b : list ascii) : bool :=
  if list_eq_dec ascii_dec a b then true else false.

(** [s] begins with [p]. *)
Definition starts_with (p s : list ascii) : bool :=
  list_eqb (firstn (length p) s) p.

(** [s] ends with [p]. *)
Definition ends_with (p s : list ascii) : bool :=
  (length p <=? length s)%nat && list_eqb (skipn (length s - length p) s) p.

(** Example states: the initial state with only a sink registered, and
    with a clock and a sink. *)
Definition sink_only : logger_state :=
  LoggerRegisterAppFunctions initial_state None (Some 1%nat).

(** [l1] is a suffix of [l2]; [r] is a run of consecutive elements of [l]. *)
Definition is_suffix {A : Type} (l1 l2 : list A) : Prop :=
  exists dropped, l2 = dropped ++ l1.

Definition contiguous {A : Type} (r l : list A) : Prop :=
  exists before after, l = before ++ r ++ after.

(** A 256-byte array that holds a terminated string. *)
Definition holds_string (b : list ascii) : Prop :=
  len b = LOGGER_BUFFER_MAX_LENGTH /\ exists s, c_str b = Done s.

(** Length of the first token of a string and of all its tokens: one past
    its first, respectively last, separator; 0 when it has none. *)
Definition first_token_len (s : list ascii) : nat :=
  match index_of HardFault.separator s with
  | None => O
  | Some i => S i
  end.

Definition stored_len (s : list ascii) : nat :=
  match rindex_of HardFault.separator s with
  | None => O
  | Some i => S i
  end.

(** A character other than the separator and the terminator. *)
Definition token_char (c : ascii) : Prop :=
  c <> NUL /\ c <> HardFault.separator.

(** A token: such characters, then the separator. *)
Definition wf_token (t : list ascii) : Prop :=
  exists body, t = body ++ [HardFault.separator] /\ Forall token_char body.

(** A 256-byte array that holds the tokens [ts], whole, at its start, and
    behind them at most some characters that are not separators. *)
Definition ring_holds (b : list ascii) (ts : list (list ascii)) : Prop :=
  len b = LOGGER_BUFFER_MAX_LENGTH
  /\ Forall wf_token ts
  /\ exists stray, c_str b = Done (concat ts ++ stray)
                  /\ ~ In HardFault.separator stray.

(** The token a call is meant to store, the length the call computes for
    it, and what a call renders. *)
Definition token_of (c : HardFault.call) : list ascii :=
  HardFault.token (HardFault.call_file c) (HardFault.call_line c).

Definition token_length (c : HardFault.call) : Z :=
  HardFault.new_log_length (HardFault.call_file c) (HardFault.call_line c).

Definition rendered_of (c : HardFault.call) : list ascii :=
  HardFault.rendered (HardFault.call_file c) (HardFault.call_line c)
    (HardFault.call_behind c).

Definition total_length (calls : list HardFault.call) : Z :=
  fold_right (fun c acc => token_length c + acc) 0 calls.

(** A call whose file name has no separator in its last component and
    whose line is a non-negative [int]. *)
Definition plain_call (c : HardFault.call) : Prop :=
  Forall token_char (GetFileNameFromPath (HardFault.call_file c))
  /\ 0 <= HardFault.call_line c <= 2147483647.

(** A call in whose frame no separator character lies between the array
    [separator] and the first zero byte behind it. *)
Definition quiet_call (c : HardFault.call) : Prop :=
  ~ In HardFault.separator (until_NUL (HardFault.call_behind c)).

(** [kept] is the longest run of the most recent calls whose tokens fit
    in 255 bytes: a suffix of [calls] that fits, while the suffix with one
    more call does not. *)
Definition newest_that_fit (kept calls : list HardFault.call) : Prop :=
  is_suffix kept calls
  /\ total_length kept <= 255
  /\ forall dropped c, calls = dropped ++ c :: kept ->
                       255 < total_length (c :: kept).

(** Example bytes behind [separator]: two bytes that are not zero, a zero
    byte, and memory that is not read. *)
Definition stray_bytes : list ascii :=
  [ascii_of_nat 9; ascii_of_nat 200; NUL; "-"%char; "x"%char].

(** Example state of the fault ring: the state after the first call
    [ZB_printf("src/main.c", 10)] made with these bytes behind
    [separator]; one token is stored. *)
Definition one_token : logger_state :=
  set_buffer initial_state
    (str "main.c10-" ++ [ascii_of_nat 9; ascii_of_nat 200] ++ zero_fill 245).

(** A call of [ZB_printf("src/main.c", 10)] with the bytes [behind]. *)
Definition main_c_10 (behind : list ascii) : HardFault.call :=
  {| HardFault.call_file := str "src/main.c";
     HardFault.call_line := 10;
     HardFault.call_behind := behind |}.

(** * Properties *)

(** ** Lists, strings and memory *)

Lemma Done_inj {A : Type} (a b : A) : Done a = Done b -> a = b.
Proof. intros H. inversion H. reflexivity. Qed.

Lemma len_app (a b : list ascii) : len (a ++ b) = len a + len b.
Proof. unfold len. rewrite length_app. lia. Qed.

Lemma len_nonneg (a : list ascii) : 0 <= len a.
Proof. unfold len. lia. Qed.

Lemma len_zero_fill (n : Z) : 0 <= n -> len (zero_fill n) = n.
Proof. intros H. unfold len, zero_fill. rewrite repeat_length. lia. Qed.

Lemma length_zero_fill (n : Z) : length (zero_fill n) = Z.to_nat n.
Proof. unfold zero_fill. apply repeat_length. Qed.

Lemma length_mem_write (m : list ascii) (off : nat) (data : list ascii) :
  (off + length data <= length m)%nat ->
  length (mem_write m off data) = length m.
Proof.
  intros H. unfold mem_write.
  rewrite !length_app, length_firstn, length_skipn. lia.
Qed.

Lemma firstn_mem_write (m : list ascii) (off : nat) (data : list ascii) (k : nat) :
  (k <= off <= length m)%nat ->
  firstn k (mem_write m off data) = firstn k m.
Proof.
  intros H. unfold mem_write.
  rewrite firstn_app, length_firstn.
  replace (k - Nat.min off (length m))%nat with O by lia.
  rewrite firstn_firstn. simpl. rewrite app_nil_r.
  f_equal. lia.
Qed.

Lemma mem_write_all (m data : list ascii) :
  length data = length m -> mem_write m O data = data.
Proof.
  intros H. unfold mem_write. simpl. rewrite H, skipn_all. apply app_nil_r.
Qed.

Lemma memset_all (m : list ascii) :
  len m = LOGGER_BUFFER_MAX_LENGTH ->
  memset m 0 NUL LOGGER_BUFFER_MAX_LENGTH = zero_fill LOGGER_BUFFER_MAX_LENGTH.
Proof.
  intros H. unfold memset. change (Z.to_nat 0) with O.
  apply mem_write_all. unfold len in H.
  rewrite length_zero_fill. unfold LOGGER_BUFFER_MAX_LENGTH in *. lia.
Qed.

Lemma truncate_firstn (n : Z) (s : list ascii) :
  truncate n s = firstn (Z.to_nat n) s.
Proof.
  revert n. induction s as [|c s IH]; intros n; simpl.
  - rewrite firstn_nil. reflexivity.
  - destruct (Z.ltb_spec 0 n) as [Hn|Hn].
    + rewrite IH. replace (Z.to_nat n) with (S (Z.to_nat (n - 1))) by lia.
      reflexivity.
    + replace (Z.to_nat n) with O by lia. reflexivity.
Qed.

(** An [snprintf] whose window lies inside the array writes the truncated
    text and a terminator. *)
Lemma snprintf_inside (m : list ascii) (off size : Z) (s : list ascii) :
  0 <= off -> 0 < size -> off + size <= len m ->
  snprintf m off size s
  = Done (mem_write m (Z.to_nat off) (firstn (Z.to_nat (size - 1)) s ++ [NUL]), len s).
Proof.
  intros Hoff Hsize Hfit. unfold snprintf. rewrite truncate_firstn.
  replace (off <? 0) with false by (symmetry; apply Z.ltb_ge; lia).
  replace (len m <? off) with false by (symmetry; apply Z.ltb_ge; lia).
  replace (size =? 0) with false by (symmetry; apply Z.eqb_neq; lia).
  simpl.
  assert (Hd : len (firstn (Z.to_nat (size - 1)) s ++ [NUL]) <= size).
  { rewrite len_app. unfold len. rewrite length_firstn. simpl. lia. }
  replace (off + len (firstn (Z.to_nat (size - 1)) s ++ [NUL]) <=? len m) with true
    by (symmetry; apply Z.leb_le; lia).
  reflexivity.
Qed.

Lemma strlen_app_NUL (s rest : list ascii) :
  Forall (fun c => c <> NUL) s -> strlen (s ++ NUL :: rest) = Some (length s).
Proof.
  induction 1 as [|c s Hc Hs IH]; simpl.
  - reflexivity.
  - destruct (Ascii.eqb_spec c NUL) as [E|_]; [contradiction|].
    rewrite IH. reflexivity.
Qed.

Lemma strlen_split (m : list ascii) (n : nat) :
  strlen m = Some n ->
  exists rest, m = firstn n m ++ NUL :: rest
               /\ Forall (fun c => c <> NUL) (firstn n m)
               /\ length (firstn n m) = n.
Proof.
  revert n. induction m as [|c m IH]; simpl; intros n H; [discriminate|].
  destruct (Ascii.eqb_spec c NUL) as [E|E].
  - inversion H; subst. exists m. simpl. auto.
  - destruct (strlen m) as [k|] eqn:Hk; simpl in H; [|discriminate].
    inversion H; subst. destruct (IH k eq_refl) as (rest & E1 & E2 & E3).
    exists rest. simpl. repeat split.
    + f_equal. exact E1.
    + constructor; assumption.
    + f_equal. exact E3.
Qed.

Lemma c_str_app_NUL (s rest : list ascii) :
  Forall (fun c => c <> NUL) s -> c_str (s ++ NUL :: rest) = Done s.
Proof.
  intros H. unfold c_str. rewrite (strlen_app_NUL s rest H).
  rewrite firstn_app, firstn_all, Nat.sub_diag. simpl. rewrite app_nil_r. reflexivity.
Qed.

Lemma c_str_split (m s : list ascii) :
  c_str m = Done s ->
  exists rest, m = s ++ NUL :: rest /\ Forall (fun c => c <> NUL) s.
Proof.
  unfold c_str. destruct (strlen m) as [n|] eqn:Hn; [|discriminate].
  intros H. inversion H; subst.
  destruct (strlen_split m n Hn) as (rest & E1 & E2 & _).
  exists rest. split; assumption.
Qed.

Lemma len_mem_write (m : list ascii) (off : Z) (data : list ascii) :
  0 <= off -> off + len data <= len m ->
  len (mem_write m (Z.to_nat off) data) = len m.
Proof.
  intros H0 H1. unfold len in *. rewrite length_mem_write; lia.
Qed.

(** ** The application name *)

Lemma mem_write_front (m d : list ascii) :
  mem_write m O d = d ++ skipn (length d) m.
Proof. reflexivity. Qed.

Lemma mem_write_back (d r x : list ascii) :
  length x = length r -> mem_write (d ++ r) (length d) x = d ++ x.
Proof.
  intros H. unfold mem_write.
  rewrite firstn_app, firstn_all, Nat.sub_diag, firstn_O, app_nil_r.
  rewrite skipn_all2 by (rewrite length_app; lia).
  rewrite app_nil_r. reflexivity.
Qed.

Lemma SetAppName_array (st : logger_state) (appName : list ascii) :
  len (app_name st) = APP_NAME_SIZE ->
  app_name (SetAppName st appName)
  = firstn 49 appName ++ repeat NUL (50 - length (firstn 49 appName)).
Proof.
  unfold len, APP_NAME_SIZE. intros Hlen.
  unfold SetAppName. cbn [app_name]. unfold strncpy, APP_NAME_SIZE.
  change (Z.to_nat (50 - 1)) with 49%nat.
  set (k := length (firstn 49 appName)).
  assert (Hk : (k <= 49)%nat) by (subst k; rewrite length_firstn; lia).
  set (d := firstn 49 appName ++ repeat NUL (49 - k)).
  assert (Hd : length d = 49%nat).
  { subst d. rewrite length_app, repeat_length. fold k. lia. }
  rewrite mem_write_front, Hd.
  rewrite <- Hd at 2. rewrite mem_write_back.
  2:{ rewrite length_skipn. cbn [length]. lia. }
  subst d. rewrite <- !app_assoc. f_equal.
  replace (50 - k)%nat with ((49 - k) + 1)%nat by lia.
  rewrite repeat_app. reflexivity.
Qed.

(** [C9] Whatever string is passed, [SetAppName] leaves in the 50-byte
    array at most 49 of its characters followed by a terminator, and the
    string [GetAppName] then points to is the input cut to 49 characters;
    a 60-character name is stored as exactly 49 characters and a
    terminator. *)
Theorem SetAppName_truncates (st : logger_state) (appName : list ascii) :
  len (app_name st) = APP_NAME_SIZE ->
  Forall (fun c => c <> NUL) appName ->
  let st' := SetAppName st appName in
  len (app_name st') = APP_NAME_SIZE
  /\ c_str (GetAppName st') = Done (firstn 49 appName)
  /\ len (firstn 49 appName) <= 49
  /\ nth_error (app_name st') (length (firstn 49 appName)) = Some NUL
  /\ nth_error (app_name st') 49 = Some NUL
  /\ (len appName = 60 -> len (firstn 49 appName) = 49).
Proof.
  intros Hlen Hstr st'. subst st'. unfold GetAppName.
  rewrite (SetAppName_array st appName Hlen).
  set (s := firstn 49 appName).
  assert (Hs : (length s <= 49)%nat) by (subst s; rewrite length_firstn; lia).
  assert (Hnz : Forall (fun c => c <> NUL) s).
  { subst s. rewrite <- (firstn_skipn 49 appName) in Hstr.
    apply Forall_app in Hstr. tauto. }
  assert (Hrep : repeat NUL (50 - length s) = NUL :: repeat NUL (49 - length s)).
  { replace (50 - length s)%nat with (S (49 - length s)) by lia. reflexivity. }
  repeat split.
  - unfold len, APP_NAME_SIZE. rewrite length_app, repeat_length. lia.
  - rewrite Hrep. apply c_str_app_NUL. exact Hnz.
  - unfold len. lia.
  - rewrite nth_error_app2, Nat.sub_diag, Hrep by lia. reflexivity.
  - rewrite nth_error_app2 by lia.
    rewrite (nth_error_repeat NUL) by lia. reflexivity.
  - unfold len. intros H60. subst s. rewrite length_firstn. lia.
Qed.

Lemma SetAppName_truncates_witness :
  let st' := SetAppName initial_state (repeat "a"%char 60) in
  len (app_name st') = APP_NAME_SIZE
  /\ c_str (GetAppName st') = Done (firstn 49 (repeat "a"%char 60))
  /\ len (firstn 49 (repeat "a"%char 60)) <= 49
  /\ nth_error (app_name st') (length (firstn 49 (repeat "a"%char 60))) = Some NUL
  /\ nth_error (app_name st') 49 = Some NUL
  /\ (len (repeat "a"%char 60) = 60 -> len (firstn 49 (repeat "a"%char 60)) = 49).
Proof.
  apply (SetAppName_truncates initial_state (repeat "a"%char 60)).
  - reflexivity.
  - apply Forall_forall. intros c Hc. apply repeat_spec in Hc. subst c. discriminate.
Defined.

(** ** The formatting logger *)

Lemma level_filter_rejects (tg : target) (st : logger_state) (lvl : Z)
  (file function : list ascii) (line : Z) (msg : list ascii) :
  lvl < level_to_int (GetCurrentLogLevel st) ->
  Logger.ZB_printf tg st lvl file function line msg = Done st.
Proof.
  intros H. unfold Logger.ZB_printf.
  destruct (Z.geb_spec lvl (level_to_int (GetCurrentLogLevel st))) as [Hge|Hlt].
  - lia.
  - reflexivity.
Qed.

(** [C4] A call whose level lies strictly below the threshold returns the
    state it was given: [logger_buffer] keeps every byte and no call of the
    sink is added. *)
Theorem ZB_printf_below_threshold (tg : target) (st : logger_state)
  (l : logger_levels_t) (file function : list ascii) (line : Z) (msg : list ascii) :
  level_to_int l < level_to_int (GetCurrentLogLevel st) ->
  Logger.ZB_printf tg st (level_to_int l) file function line msg = Done st
  /\ (forall st', Logger.ZB_printf tg st (level_to_int l) file function line msg = Done st' ->
       logger_buffer st' = logger_buffer st /\ sink_calls st' = sink_calls st).
Proof.
  intros H.
  pose proof (level_filter_rejects tg st (level_to_int l) file function line msg H) as E.
  split; [exact E|].
  intros st' E'. rewrite E in E'. inversion E'. subst st'. split; reflexivity.
Qed.

Lemma ZB_printf_below_threshold_witness :
  Logger.ZB_printf ILP32 initial_state (level_to_int INFO)
    (str "src/main.c") (str "main") 42 (str "code=7")
  = Done initial_state.
Proof.
  apply (ZB_printf_below_threshold ILP32 initial_state INFO).
  vm_compute. reflexivity.
Defined.

Lemma sizeof_ptr_range (tg : target) : 4 <= sizeof_ptr tg <= 8.
Proof. destruct tg; simpl; lia. Qed.

Lemma size_t_modulus_large (tg : target) : 2 ^ 32 <= size_t_modulus tg.
Proof. destruct tg; unfold size_t_modulus; simpl; lia. Qed.

Lemma to_size_t_small (tg : target) (z : Z) :
  0 <= z < 2 ^ 32 -> to_size_t tg z = z.
Proof.
  intros H. unfold to_size_t. apply Z.mod_small.
  pose proof (size_t_modulus_large tg). lia.
Qed.

Lemma size_t_of_int_nonneg (tg : target) (z : Z) :
  0 <= z -> size_t_of_int tg z = z.
Proof.
  intros H. unfold size_t_of_int.
  destruct (Z.leb_spec 0 z); [reflexivity | lia].
Qed.

Lemma logger_array_at_level (l : logger_levels_t) :
  Logger.logger_array_at (level_to_int l) = Done (Logger.desc_of l).
Proof. destruct l; reflexivity. Qed.

Lemma render_message_fits (tg : target) (buf : list ascii) (P room : Z)
  (msg : list ascii) :
  len buf = 256 -> 0 <= P -> 0 <= room -> P + room <= 256 ->
  exists buf',
    Logger.render_message tg buf P room msg = Done (buf', P + Z.min (len msg) room)
    /\ len buf' = 256
    /\ firstn (Z.to_nat P) buf' = firstn (Z.to_nat P) buf.
Proof.
  intros Hbuf HP Hroom Hfit. unfold Logger.render_message.
  pose proof (len_nonneg msg) as HM.
  destruct (Z.gtb_spec room 0) as [Hpos|Hzero].
  - rewrite snprintf_inside by lia. cbn [bind].
    set (data := firstn (Z.to_nat (room - 1)) msg ++ [NUL]).
    assert (Hdata : len data <= room).
    { subst data. rewrite len_app. unfold len. rewrite length_firstn. simpl. lia. }
    exists (mem_write buf (Z.to_nat P) data).
    rewrite len_mem_write by lia.
    rewrite firstn_mem_write by (unfold len in Hbuf; lia).
    repeat split; try assumption.
    rewrite size_t_of_int_nonneg by assumption.
    destruct (Z.gtb_spec (len msg) 0) as [Hm|Hm].
    + destruct (Z.gtb_spec (len msg) room) as [Hbig|Hsmall].
      * rewrite Z.min_r by lia. reflexivity.
      * rewrite Z.min_l by lia. reflexivity.
    + rewrite Z.min_l by lia. replace (len msg) with 0 by lia.
      rewrite Z.add_0_r. reflexivity.
  - exists buf. rewrite Z.min_r by lia.
    replace room with 0 by lia. rewrite Z.add_0_r. auto.
Qed.

(** A record whose preamble leaves the reserved [sizeof(RESET_NEWLINE)]
    bytes free is rendered inside the buffer: the preamble, the message cut
    to the room left, and as much of the trailer as fits. *)
Lemma format_record_fits (tg : target) (st : logger_state) (l : logger_levels_t)
  (file function : list ascii) (line : Z) (msg pre : list ascii) :
  len (logger_buffer st) = LOGGER_BUFFER_MAX_LENGTH ->
  Logger.preamble st (Logger.desc_of l) file function line = Done pre ->
  len pre <= LOGGER_BUFFER_MAX_LENGTH - sizeof_ptr tg ->
  let L := len pre + Z.min (len msg) (LOGGER_BUFFER_MAX_LENGTH - sizeof_ptr tg - len pre) in
  exists head tail,
    Logger.format_record tg st (level_to_int l) file function line msg
    = Done (head ++ firstn (Z.to_nat (LOGGER_BUFFER_MAX_LENGTH - L - 1)) Logger.RESET_NEWLINE
                 ++ NUL :: tail, L)
    /\ len head = L
    /\ firstn (Z.to_nat (len pre)) head = pre
    /\ len (head ++ firstn (Z.to_nat (LOGGER_BUFFER_MAX_LENGTH - L - 1)) Logger.RESET_NEWLINE
                 ++ NUL :: tail) = LOGGER_BUFFER_MAX_LENGTH.
Proof.
  intros Hbuf Hpre Hfit L. unfold LOGGER_BUFFER_MAX_LENGTH in *.
  pose proof (sizeof_ptr_range tg) as Hsp.
  pose proof (len_nonneg pre) as HP. pose proof (len_nonneg msg) as HM.
  unfold Logger.format_record.
  rewrite memset_all by exact Hbuf.
  rewrite logger_array_at_level. cbn [bind]. rewrite Hpre. cbn [bind].
  unfold LOGGER_BUFFER_MAX_LENGTH, Logger.sizeof_RESET_NEWLINE.
  rewrite snprintf_inside by (rewrite ?len_zero_fill; lia). cbn [bind].
  change (Z.to_nat 0) with O.
  rewrite firstn_all2 by (unfold len in *; lia).
  set (buf1 := mem_write (zero_fill 256) 0 (pre ++ [NUL])).
  assert (Hbuf1 : len buf1 = 256).
  { subst buf1. change O with (Z.to_nat 0). rewrite len_mem_write.
    - apply len_zero_fill. lia.
    - lia.
    - rewrite len_app, len_zero_fill by lia. change (len [NUL]) with 1. lia. }
  assert (Hpre1 : firstn (Z.to_nat (len pre)) buf1 = pre).
  { subst buf1. rewrite mem_write_front, <- app_assoc.
    unfold len. rewrite Nat2Z.id, firstn_app, firstn_all, Nat.sub_diag.
    simpl. apply app_nil_r. }
  rewrite size_t_of_int_nonneg by assumption.
  rewrite to_size_t_small by lia.
  destruct (render_message_fits tg buf1 (len pre) (256 - sizeof_ptr tg - len pre) msg)
    as (buf2 & Hr & Hbuf2 & Hpre2); try lia.
  rewrite Hr. cbn [bind]. fold L.
  assert (HL : len pre <= L <= 256 - sizeof_ptr tg) by (subst L; lia).
  rewrite size_t_of_int_nonneg by lia.
  rewrite to_size_t_small by lia.
  rewrite snprintf_inside by lia. cbn [bind].
  exists (firstn (Z.to_nat L) buf2).
  eexists. split; [unfold mem_write; rewrite <- app_assoc; reflexivity|].
  assert (Hhead : len (firstn (Z.to_nat L) buf2) = L).
  { unfold len in *. rewrite length_firstn. lia. }
  split; [exact Hhead|]. split.
  - rewrite firstn_firstn. replace (Nat.min (Z.to_nat (len pre)) (Z.to_nat L))
      with (Z.to_nat (len pre)) by lia.
    rewrite Hpre2. exact Hpre1.
  - assert (Htr : length Logger.RESET_NEWLINE = 6%nat) by reflexivity.
    unfold len in *.
    rewrite !length_app. cbn [length].
    rewrite length_skipn, !length_firstn, Htr. lia.
Qed.

Lemma format_record_prefix (tg : target) (st : logger_state) (l : logger_levels_t)
  (file function : list ascii) (line : Z) (msg pre : list ascii) :
  len (logger_buffer st) = LOGGER_BUFFER_MAX_LENGTH ->
  Logger.preamble st (Logger.desc_of l) file function line = Done pre ->
  len pre <= LOGGER_BUFFER_MAX_LENGTH - sizeof_ptr tg ->
  exists buf n,
    Logger.format_record tg st (level_to_int l) file function line msg = Done (buf, n)
    /\ firstn (Z.to_nat (len pre)) buf = pre.
Proof.
  intros Hbuf Hpre Hfit.
  destruct (format_record_fits tg st l file function line msg pre Hbuf Hpre Hfit)
    as (head & tail & Hfmt & Hhead & Hprefix & Hlen).
  eexists. eexists. split; [exact Hfmt|].
  rewrite firstn_app.
  replace (Z.to_nat (len pre) - length head)%nat with O.
  - rewrite firstn_O, app_nil_r. exact Hprefix.
  - pose proof (len_nonneg msg). pose proof (sizeof_ptr_range tg).
    unfold len, LOGGER_BUFFER_MAX_LENGTH in *. lia.
Qed.

Lemma sentinel_rendering (st : logger_state) :
  pfGetMilliseconds st = None -> fmt_0_1f (GetMilliseconds st) = str "-1.0".
Proof.
  intros H. unfold GetMilliseconds. rewrite H. vm_compute. reflexivity.
Qed.

Lemma ZB_printf_delivers (tg : target) (st : logger_state) (l : logger_levels_t)
  (file function : list ascii) (line : Z) (msg : list ascii)
  (buf : list ascii) (n : Z) :
  level_to_int (GetCurrentLogLevel st) <= level_to_int l ->
  Logger.format_record tg st (level_to_int l) file function line msg = Done (buf, n) ->
  Logger.ZB_printf tg st (level_to_int l) file function line msg
  = Done (LoggerPrintf (set_buffer st buf) buf
            (to_uint8 (size_t_of_int tg n + sizeof_ptr tg))).
Proof.
  intros Hlvl Hfmt. unfold Logger.ZB_printf.
  destruct (Z.geb_spec (level_to_int l) (level_to_int (GetCurrentLogLevel st))); [|lia].
  rewrite Hfmt. reflexivity.
Qed.

Lemma firstn_app_exact {A : Type} (a b : list A) (n : nat) :
  n = length a -> firstn n (a ++ b) = a.
Proof.
  intros ->. rewrite firstn_app, firstn_all, Nat.sub_diag, firstn_O. apply app_nil_r.
Qed.

(** Whenever the preamble fits, the bytes handed to a registered sink do
    not end with the trailer: their count is the tracked length plus the
    size of a pointer (modulo 256), never the tracked length plus the
    length of the trailer. *)
Lemma sink_bytes_never_end_with_trailer (tg : target) (st : logger_state)
  (l : logger_levels_t) (file function : list ascii) (line : Z)
  (msg pre : list ascii) (f : LoggerPrintfFunction) :
  len (logger_buffer st) = LOGGER_BUFFER_MAX_LENGTH ->
  level_to_int (GetCurrentLogLevel st) <= level_to_int l ->
  Logger.preamble st (Logger.desc_of l) file function line = Done pre ->
  len pre <= LOGGER_BUFFER_MAX_LENGTH - sizeof_ptr tg ->
  pfLoggerPrintf st = Some f ->
  exists st' c,
    Logger.ZB_printf tg st (level_to_int l) file function line msg = Done st'
    /\ sink_calls st' = sink_calls st ++ [c]
    /\ forall x, sc_bytes c <> x ++ Logger.RESET_NEWLINE.
Proof.
  intros Hbuf Hlvl Hpre Hfit Hsink.
  destruct (format_record_fits tg st l file function line msg pre Hbuf Hpre Hfit)
    as (head & tail & Hfmt & Hhead & _ & Hlen).
  set (L := len pre + Z.min (len msg) (LOGGER_BUFFER_MAX_LENGTH - sizeof_ptr tg - len pre)) in *.
  pose proof (len_nonneg pre) as HP. pose proof (len_nonneg msg) as HM.
  pose proof (sizeof_ptr_range tg) as Hsp.
  unfold LOGGER_BUFFER_MAX_LENGTH in *.
  assert (HL : 0 <= L <= 256 - sizeof_ptr tg) by (subst L; lia).
  rewrite (ZB_printf_delivers tg st l file function line msg _ _ Hlvl Hfmt).
  unfold LoggerPrintf. cbn [set_buffer pfLoggerPrintf sink_calls]. rewrite Hsink.
  eexists. eexists. split; [reflexivity|]. cbn [sink_calls]. split; [reflexivity|].
  cbn [sc_bytes]. rewrite size_t_of_int_nonneg by lia. unfold to_uint8.
  intros x Hx.
  destruct (Z.eq_dec (L + sizeof_ptr tg) 256) as [E|E].
  - rewrite E in Hx. change (Z.to_nat (256 mod 256)) with O in Hx.
    rewrite firstn_O in Hx. apply (f_equal (@length ascii)) in Hx.
    rewrite length_app in Hx. change (length Logger.RESET_NEWLINE) with 6%nat in Hx.
    cbn [length] in Hx. lia.
  - rewrite Z.mod_small in Hx by lia.
    assert (Htail : len tail = 256 - L - len (firstn (Z.to_nat (256 - L - 1)) Logger.RESET_NEWLINE) - 1).
    { rewrite !len_app in Hlen. change (NUL :: tail) with ([NUL] ++ tail) in Hlen.
      rewrite len_app in Hlen. change (len [NUL]) with 1 in Hlen. lia. }
    destruct tg; cbn [sizeof_ptr] in *.
    + replace (firstn (Z.to_nat (L + 4)) (head ++ firstn (Z.to_nat (256 - L - 1)) Logger.RESET_NEWLINE ++ NUL :: tail))
        with (head ++ firstn 4 Logger.RESET_NEWLINE) in Hx.
      * apply (f_equal (@rev ascii)) in Hx. rewrite !rev_app_distr in Hx.
        discriminate.
      * rewrite firstn_app. rewrite (firstn_all2 head) by (unfold len in Hhead; lia).
        f_equal. replace (Z.to_nat (L + 4) - length head)%nat with 4%nat
          by (unfold len in Hhead; lia).
        rewrite firstn_app, firstn_firstn.
        replace (Nat.min 4 (Z.to_nat (256 - L - 1))) with 4%nat by lia.
        rewrite length_firstn.
        replace (4 - Nat.min (Z.to_nat (256 - L - 1)) (length Logger.RESET_NEWLINE))%nat
          with O by (change (length Logger.RESET_NEWLINE) with 6%nat; lia).
        rewrite firstn_O, app_nil_r. reflexivity.
    + rewrite (firstn_all2 (n := Z.to_nat (256 - L - 1))) in Hx, Htail
        by (change (length Logger.RESET_NEWLINE) with 6%nat; lia).
      change (len Logger.RESET_NEWLINE) with 6 in Htail.
      destruct tail as [|y tail]; [change (len []) with 0 in Htail; lia|].
      replace (firstn (Z.to_nat (L + 8)) (head ++ Logger.RESET_NEWLINE ++ NUL :: y :: tail))
        with (head ++ Logger.RESET_NEWLINE ++ [NUL; y]) in Hx.
      * apply (f_equal (@rev ascii)) in Hx. rewrite !rev_app_distr in Hx.
        discriminate.
      * transitivity (firstn (Z.to_nat (L + 8))
                        ((head ++ Logger.RESET_NEWLINE ++ [NUL; y]) ++ tail)).
        -- symmetry. apply firstn_app_exact.
           rewrite !length_app. change (length Logger.RESET_NEWLINE) with 6%nat.
           cbn [length]. unfold len in Hhead. lia.
        -- f_equal. rewrite <- !app_assoc. reflexivity.
Qed.

(** [C7] No clock and no sink are registered (the initial state).  An
    ordinary record, [ZB_printf(WARN, "src/main.c", "main", 42, "code=7")],
    is then formatted whole, with the sentinel rendered [-1.0] as its
    elapsed time, the call returns, only [logger_buffer] has changed and
    nothing is delivered.  But the call does not always return normally:
    with a function name of 300 characters the preamble is 346 characters
    long, the remaining space wraps around (the defect of [C1]) and the
    message is formatted at [logger_buffer + 346], outside the array. *)
Theorem unregistered_clock_and_sink (tg : target) :
  pfGetMilliseconds initial_state = None
  /\ pfLoggerPrintf initial_state = None
  /\ fmt_0_1f (GetMilliseconds initial_state) = str "-1.0"
  /\ (exists st',
        Logger.ZB_printf tg initial_state (level_to_int WARN)
          (str "src/main.c") (str "main") 42 (str "code=7") = Done st'
        /\ c_str (logger_buffer st')
           = Done ((Logger.ESC
                    :: str "[33;1mMyApp[-1.0] : WARN : main.c : main : 42 -> code=7")
                   ++ Logger.RESET_NEWLINE)
        /\ st' = set_buffer initial_state (logger_buffer st')
        /\ sink_calls st' = [])
  /\ (exists pre,
        Logger.preamble initial_state (Logger.desc_of WARN)
          (str "src/main.c") (repeat "f"%char 300) 42 = Done pre
        /\ len pre = 346
        /\ Logger.ZB_printf tg initial_state (level_to_int WARN)
             (str "src/main.c") (repeat "f"%char 300) 42 (str "code=7") = Fault).
Proof.
  split; [reflexivity|]. split; [reflexivity|].
  split; [vm_compute; reflexivity|]. split.
  - destruct tg; eexists; vm_compute; repeat split; reflexivity.
  - destruct tg; eexists; vm_compute; repeat split; reflexivity.
Qed.

(** [C10] The program starts with the threshold at [WARN]: that is what
    [GetCurrentLogLevel] returns before any [SetCurrentLogLevel], whatever
    clock and sink are registered, and every [DBG] or [INFO] call then
    returns the state untouched.  An ordinary [WARN], [ERR] or [FATAL]
    record is formatted whole and handed to the registered sink.  But not
    every such record is delivered.  A [WARN] record with a message of 300
    characters is cut to the room left; the length handed to
    [LoggerPrintf] is then 256, which its [uint8_t] parameter turns into
    0, and the sink is called with no byte.  A [WARN] record with a
    function name of 300 characters is formatted outside the buffer (the
    defect of [C1]). *)
Theorem default_threshold_is_WARN (tg : target) :
  GetCurrentLogLevel initial_state = WARN
  /\ (forall (g : option GetMillisecondsFunction) (f : option LoggerPrintfFunction),
        GetCurrentLogLevel (LoggerRegisterAppFunctions initial_state g f) = WARN)
  /\ (forall (g : option GetMillisecondsFunction) (f : option LoggerPrintfFunction)
        (file function : list ascii) (line : Z) (msg : list ascii),
        let st := LoggerRegisterAppFunctions initial_state g f in
        Logger.ZB_printf tg st (level_to_int DBG) file function line msg = Done st
        /\ Logger.ZB_printf tg st (level_to_int INFO) file function line msg = Done st)
  /\ Forall (fun l =>
        exists st' c,
          Logger.ZB_printf tg sink_only (level_to_int l)
            (str "src/main.c") (str "main") 42 (str "code=7") = Done st'
          /\ c_str (logger_buffer st')
             = Done (Logger.color (Logger.desc_of l) ++ str "MyApp[-1.0] : "
                     ++ Logger.name (Logger.entity (Logger.desc_of l))
                     ++ str " : main.c : main : 42 -> code=7" ++ Logger.RESET_NEWLINE)
          /\ sink_calls st' = [c]
          /\ sc_bytes c = firstn (Z.to_nat (sc_len c)) (logger_buffer st')
          /\ len (Logger.color (Logger.desc_of l) ++ str "MyApp[-1.0] : "
                  ++ Logger.name (Logger.entity (Logger.desc_of l))
                  ++ str " : main.c : main : 42 -> code=7") < sc_len c)
       [WARN; ERR; FATAL]
  /\ (exists st' c,
        Logger.ZB_printf tg sink_only (level_to_int WARN)
          (str "src/main.c") (str "main") 42 (repeat "m"%char 300) = Done st'
        /\ sink_calls st' = [c]
        /\ sc_len c = 0
        /\ sc_bytes c = [])
  /\ Logger.ZB_printf tg sink_only (level_to_int WARN)
       (str "src/main.c") (repeat "f"%char 300) 42 (str "code=7") = Fault.
Proof.
  split; [reflexivity|]. split; [reflexivity|]. split.
  { intros g f file function line msg st.
    split; apply level_filter_rejects; subst st; simpl; lia. }
  split.
  { apply Forall_cons; [|apply Forall_cons; [|apply Forall_cons; [|apply Forall_nil]]];
      destruct tg; eexists; eexists; vm_compute; repeat split; reflexivity. }
  split.
  - destruct tg; eexists; eexists; vm_compute; repeat split; reflexivity.
  - destruct tg; vm_compute; reflexivity.
Qed.

(** [C6] The bytes the sink receives for an ordinary [WARN] record,
    [ZB_printf(WARN, "src/main.c", "main", 42, "code=7")] from the initial
    state with a sink registered.  They begin with the colour code of
    [WARN], but the length argument adds [sizeof(RESET_NEWLINE)], the size
    of a pointer, to the tracked length, not the six characters of the
    trailer: with 4-byte pointers the sink is handed the first four bytes
    of the trailer only, with 8-byte pointers the trailer and two zero
    bytes.  In neither case do the bytes end with the trailer. *)
Theorem sink_bytes_miss_trailer (tg : target) :
  exists st' c,
    Logger.ZB_printf tg sink_only (level_to_int WARN)
      (str "src/main.c") (str "main") 42 (str "code=7") = Done st'
    /\ sink_calls st' = [c]
    /\ sc_len c = 56 + sizeof_ptr tg
    /\ sc_bytes c
       = (Logger.ESC :: str "[33;1mMyApp[-1.0] : WARN : main.c : main : 42 -> code=7")
         ++ match tg with
            | ILP32 => [Logger.LF; Logger.CR; Logger.ESC; "["%char]
            | LP64 => Logger.RESET_NEWLINE ++ [NUL; NUL]
            end
    /\ starts_with (Logger.color (Logger.desc_of WARN)) (sc_bytes c) = true
    /\ ends_with Logger.RESET_NEWLINE (sc_bytes c) = false.
Proof.
  destruct tg; eexists; eexists; vm_compute; repeat split; reflexivity.
Qed.

(** [C1] A preamble longer than the buffer: the logger is called with a
    346-character preamble (a 300-character function name).  The remaining
    space [sizeof(logger_buffer) - sizeof(RESET_NEWLINE) - length] is a
    [size_t] and wraps around to a huge positive value, the [size > 0] test
    passes, and the message is formatted at [logger_buffer + 346], outside
    the array.  With a 253-character preamble and 4-byte pointers the
    remaining space is [-1] before the wrap-around; the message is
    rendered all the same, at offset 253 of the buffer. *)
Theorem long_preamble_overruns_buffer :
  (forall tg : target,
     let function := repeat "f"%char 300 in
     exists pre,
       Logger.preamble sink_only (Logger.desc_of WARN) (str "src/main.c") function 42
       = Done pre
       /\ len pre = 346
       /\ to_size_t tg (LOGGER_BUFFER_MAX_LENGTH - Logger.sizeof_RESET_NEWLINE tg
                        - size_t_of_int tg (len pre))
          = size_t_modulus tg - 90 - sizeof_ptr tg
       /\ Logger.ZB_printf tg sink_only (level_to_int WARN)
            (str "src/main.c") function 42 (str "code=7") = Fault)
  /\ (let function := repeat "f"%char 207 in
      exists pre st' c,
        Logger.preamble sink_only (Logger.desc_of WARN) (str "src/main.c") function 42
        = Done pre
        /\ len pre = 253
        /\ Logger.ZB_printf ILP32 sink_only (level_to_int WARN)
             (str "src/main.c") function 42 (str "x") = Done st'
        /\ nth_error (logger_buffer st') 253 = Some "x"%char
        /\ sink_calls st' = [c]
        /\ sc_len c = 2).
Proof.
  split.
  - intros tg function. eexists. split; [vm_compute; reflexivity|].
    destruct tg; vm_compute; repeat split; reflexivity.
  - eexists. eexists. eexists. vm_compute. repeat split; reflexivity.
Qed.

(** ** Searching a string *)

Lemma index_of_None (c : ascii) (s : list ascii) :
  index_of c s = None <-> ~ In c s.
Proof.
  induction s as [|x s IH]; simpl.
  - tauto.
  - destruct (Ascii.eqb_spec x c) as [E|E].
    + split; [discriminate | intros H; exfalso; apply H; auto].
    + destruct (index_of c s); simpl.
      * split; [discriminate|]. intros H. exfalso. apply H. right.
        destruct IH as [_ IH]. destruct (in_dec ascii_dec c s) as [Hi|Hn]; [exact Hi|].
        specialize (IH Hn). discriminate.
      * split; [|reflexivity]. intros _ [H|H]; [congruence|].
        destruct IH as [IH _]. exact (IH eq_refl H).
Qed.

Lemma rindex_of_None (c : ascii) (s : list ascii) :
  rindex_of c s = None <-> ~ In c s.
Proof.
  induction s as [|x s IH]; simpl.
  - tauto.
  - destruct (rindex_of c s) as [i|].
    + split; [discriminate|]. intros H. exfalso. apply H. right.
      destruct (in_dec ascii_dec c s) as [Hi|Hn]; [exact Hi|].
      destruct IH as [_ IH]. specialize (IH Hn). discriminate.
    + destruct (Ascii.eqb_spec x c) as [E|E].
      * split; [discriminate | intros H; exfalso; apply H; auto].
      * split; [|reflexivity]. intros _ [H|H]; [congruence|].
        destruct IH as [IH _]. exact (IH eq_refl H).
Qed.

Lemma index_of_app_cons (c : ascii) (body rest : list ascii) :
  ~ In c body -> index_of c (body ++ c :: rest) = Some (length body).
Proof.
  induction body as [|x body IH]; simpl; intros H.
  - rewrite Ascii.eqb_refl. reflexivity.
  - destruct (Ascii.eqb_spec x c) as [E|E]; [exfalso; apply H; auto|].
    rewrite IH by tauto. reflexivity.
Qed.

Lemma index_of_split (c : ascii) (s : list ascii) (i : nat) :
  index_of c s = Some i ->
  exists body rest, s = body ++ c :: rest /\ ~ In c body /\ length body = i.
Proof.
  revert i. induction s as [|x s IH]; simpl; intros i H; [discriminate|].
  destruct (Ascii.eqb_spec x c) as [E|E].
  - inversion H; subst. exists [], s. simpl. tauto.
  - destruct (index_of c s) as [j|]; simpl in H; [|discriminate].
    inversion H; subst. destruct (IH j eq_refl) as (body & rest & E1 & E2 & E3).
    exists (x :: body), rest. simpl. subst s. repeat split; auto.
    intros [F|F]; [congruence | contradiction].
Qed.

Lemma rindex_of_app (c : ascii) (a b : list ascii) :
  rindex_of c (a ++ b)
  = match rindex_of c b with
    | Some j => Some (length a + j)%nat
    | None => rindex_of c a
    end.
Proof.
  induction a as [|x a IH]; simpl.
  - destruct (rindex_of c b); reflexivity.
  - rewrite IH. destruct (rindex_of c b); reflexivity.
Qed.

Lemma first_token_len_split (body rest : list ascii) :
  ~ In HardFault.separator body ->
  first_token_len (body ++ HardFault.separator :: rest) = S (length body).
Proof.
  intros H. unfold first_token_len. rewrite index_of_app_cons by exact H. reflexivity.
Qed.

Lemma stored_len_split (body rest : list ascii) :
  stored_len (body ++ HardFault.separator :: rest)
  = (S (length body) + stored_len rest)%nat.
Proof.
  unfold stored_len. rewrite rindex_of_app. cbn [rindex_of].
  destruct (rindex_of HardFault.separator rest) as [j|].
  - f_equal. lia.
  - rewrite Ascii.eqb_refl. f_equal. lia.
Qed.

Lemma stored_len_no_separator (s : list ascii) :
  first_token_len s = O -> stored_len s = O.
Proof.
  unfold first_token_len, stored_len.
  destruct (index_of HardFault.separator s) eqn:E; [discriminate|].
  intros _. apply index_of_None in E. apply rindex_of_None in E.
  rewrite E. reflexivity.
Qed.

(** Dropping the first token shortens the stored length by its length. *)
Lemma stored_len_skip_first (s : list ascii) :
  stored_len (skipn (first_token_len s) s)
  = (stored_len s - first_token_len s)%nat
  /\ (first_token_len s <= stored_len s)%nat
  /\ (first_token_len s <= length s)%nat
  /\ (stored_len s <= length s)%nat
  /\ (stored_len s <> O -> first_token_len s <> O).
Proof.
  destruct (index_of HardFault.separator s) as [i|] eqn:E.
  - destruct (index_of_split _ _ _ E) as (body & rest & Hs & Hbody & Hlen).
    subst s. rewrite first_token_len_split by exact Hbody.
    rewrite stored_len_split.
    replace (S (length body)) with (length (body ++ [HardFault.separator]))
      by (rewrite length_app; simpl; lia).
    replace (body ++ HardFault.separator :: rest)
      with ((body ++ [HardFault.separator]) ++ rest)
      by (rewrite <- app_assoc; reflexivity).
    rewrite skipn_app, skipn_all, Nat.sub_diag. simpl skipn.
    rewrite !length_app. simpl length.
    assert (Hrest : (stored_len rest <= length rest)%nat).
    { unfold stored_len. destruct (rindex_of HardFault.separator rest) as [j|] eqn:Ej; [|lia].
      clear - Ej. revert j Ej. induction rest as [|x rest IH]; simpl; intros j Ej; [discriminate|].
      destruct (rindex_of HardFault.separator rest) as [k|].
      - inversion Ej; subst. specialize (IH k eq_refl). lia.
      - destruct (Ascii.eqb x HardFault.separator); inversion Ej; subst. lia. }
    cbn [app]. repeat split; lia.
  - assert (H0 : first_token_len s = O) by (unfold first_token_len; rewrite E; reflexivity).
    rewrite H0. cbn [skipn]. rewrite (stored_len_no_separator s H0).
    repeat split; lia.
Qed.

(** ** The fault ring: scanning and shifting the buffer *)

Lemma c_str_of_NUL (b : list ascii) : In NUL b -> exists s, c_str b = Done s.
Proof.
  unfold c_str. induction b as [|x b IH]; simpl; intros H; [contradiction|].
  destruct (Ascii.eqb_spec x NUL) as [E|E].
  - eexists. reflexivity.
  - destruct H as [H|H]; [congruence|].
    destruct (IH H) as [s Hs]. destruct (strlen b); [|discriminate].
    eexists. reflexivity.
Qed.

Lemma Forall_skipn {A : Type} (P : A -> Prop) (k : nat) (l : list A) :
  Forall P l -> Forall P (skipn k l).
Proof.
  intros H. rewrite <- (firstn_skipn k l) in H. apply Forall_app in H. tauto.
Qed.

Lemma length_of_stored_log_spec (b s : list ascii) :
  c_str b = Done s ->
  HardFault.length_of_stored_log b = Done (Z.of_nat (stored_len s)).
Proof.
  intros H. unfold HardFault.length_of_stored_log, strrchr, stored_len.
  rewrite H. cbn [bind].
  destruct (rindex_of HardFault.separator s); f_equal; lia.
Qed.

Lemma latest_stored_log_length_spec (b s : list ascii) :
  c_str b = Done s ->
  HardFault.latest_stored_log_length b = Done (Z.of_nat (first_token_len s)).
Proof.
  intros H. unfold HardFault.latest_stored_log_length, strchr, first_token_len.
  rewrite H. cbn [bind].
  destruct (index_of HardFault.separator s); f_equal; lia.
Qed.

(** The [memcpy] / [memset] pair of the loop body moves the buffer [k]
    bytes down and clears the [k] bytes it vacates. *)
Lemma shift_down (b : list ascii) (k : nat) :
  length b = 256%nat -> (k <= 256)%nat ->
  memset (memcpy_down b (Z.of_nat k) (HardFault.capacity - Z.of_nat k))
    (HardFault.capacity - Z.of_nat k) NUL (Z.of_nat k)
  = skipn k b ++ repeat NUL k.
Proof.
  intros Hb Hk. unfold memset, memcpy_down, HardFault.capacity, LOGGER_BUFFER_MAX_LENGTH.
  rewrite Nat2Z.id. replace (Z.to_nat (256 - Z.of_nat k)) with (256 - k)%nat by lia.
  rewrite firstn_all2 by (rewrite length_skipn; lia).
  rewrite mem_write_front, length_skipn, Hb.
  unfold mem_write.
  rewrite firstn_app, length_skipn, Hb, Nat.sub_diag, firstn_O, app_nil_r.
  rewrite firstn_all2 by (rewrite length_skipn; lia).
  rewrite (skipn_all2 (skipn k b ++ skipn (256 - k) b)).
  - rewrite app_nil_r. reflexivity.
  - rewrite length_app, !length_skipn, repeat_length, Hb. lia.
Qed.

(** One pass of the loop on a buffer that holds the string [s]: the first
    token of [s] is gone, the rest of the buffer has moved down. *)
Lemma evict_one_spec (b s : list ascii) :
  len b = LOGGER_BUFFER_MAX_LENGTH -> c_str b = Done s ->
  let k := first_token_len s in
  let b' := skipn k b ++ repeat NUL k in
  HardFault.evict_one b = Done (b', Z.of_nat (stored_len (skipn k s)))
  /\ len b' = LOGGER_BUFFER_MAX_LENGTH
  /\ c_str b' = Done (skipn k s).
Proof.
  intros Hb Hs k b'.
  destruct (c_str_split b s Hs) as (rest & Eb & Hnz).
  pose proof (stored_len_skip_first s) as (_ & _ & Hk & _ & _). fold k in Hk.
  assert (Hlen : length b = 256%nat) by (unfold len, LOGGER_BUFFER_MAX_LENGTH in Hb; lia).
  assert (Hks : (k <= 256)%nat).
  { rewrite Eb, length_app in Hlen. simpl in Hlen. lia. }
  assert (Hb' : c_str b' = Done (skipn k s)).
  { subst b'. rewrite Eb at 1. rewrite skipn_app.
    replace (k - length s)%nat with O by lia. cbn [skipn].
    rewrite <- app_assoc. cbn [app].
    apply c_str_app_NUL. apply Forall_skipn. exact Hnz. }
  assert (Hlen' : len b' = LOGGER_BUFFER_MAX_LENGTH).
  { subst b'. unfold len, LOGGER_BUFFER_MAX_LENGTH.
    rewrite length_app, length_skipn, repeat_length. lia. }
  split; [|split; assumption].
  unfold HardFault.evict_one.
  rewrite (latest_stored_log_length_spec b s Hs). cbn [bind]. fold k.
  rewrite (shift_down b k Hlen Hks). fold b'.
  rewrite (length_of_stored_log_spec b' _ Hb'). reflexivity.
Qed.

Lemma holds_string_stored (b s : list ascii) :
  len b = LOGGER_BUFFER_MAX_LENGTH -> c_str b = Done s ->
  (stored_len s <= 255)%nat.
Proof.
  intros Hb Hs. destruct (c_str_split b s Hs) as (rest & Eb & _).
  pose proof (stored_len_skip_first s) as (_ & _ & _ & Hle & _).
  unfold len, LOGGER_BUFFER_MAX_LENGTH in Hb.
  rewrite Eb, length_app in Hb. simpl in Hb. lia.
Qed.

Lemma no_room_spec (tg : target) (new_len stored : Z) :
  0 <= new_len -> 0 <= stored <= 256 ->
  HardFault.no_room tg new_len stored = (new_len >? 256 - stored).
Proof.
  intros Hn Hs. unfold HardFault.no_room, HardFault.capacity, LOGGER_BUFFER_MAX_LENGTH.
  rewrite !size_t_of_int_nonneg by lia.
  rewrite to_size_t_small by lia. reflexivity.
Qed.

Lemma log10_fuel_nonneg (fuel : nat) (n : Z) : 0 <= log10_fuel fuel n.
Proof.
  revert n. induction fuel as [|f IH]; intros n; cbn [log10_fuel]; [lia|].
  destruct (n <? 10); [lia|]. specialize (IH (n / 10)). lia.
Qed.

Lemma length_of_line_pos (line : Z) : 1 <= HardFault.length_of_line line.
Proof.
  unfold HardFault.length_of_line, floor_log10.
  destruct (line =? 0); [lia|].
  pose proof (log10_fuel_nonneg (S (Z.to_nat (Z.log2 (Z.abs line)))) (Z.abs line)).
  destruct (line <? 0); lia.
Qed.

Lemma new_log_length_pos (file : list ascii) (line : Z) :
  2 <= HardFault.new_log_length file line.
Proof.
  unfold HardFault.new_log_length, HardFault.sizeof_separator.
  pose proof (length_of_line_pos line).
  pose proof (len_nonneg (GetFileNameFromPath file)). lia.
Qed.

(** ** The eviction loop *)

Lemma evict_terminates (tg : target) (new_len : Z) :
  0 <= new_len <= 256 ->
  forall (fuel : nat) (b s : list ascii),
    len b = LOGGER_BUFFER_MAX_LENGTH -> c_str b = Done s ->
    (stored_len s < fuel)%nat ->
    exists b' s',
      HardFault.evict fuel tg b new_len = Done (b', Z.of_nat (stored_len s'))
      /\ len b' = LOGGER_BUFFER_MAX_LENGTH
      /\ c_str b' = Done s'
      /\ new_len <= 256 - Z.of_nat (stored_len s').
Proof.
  intros Hn. induction fuel as [|f IH]; intros b s Hb Hs Hfuel; [lia|].
  destruct (evict_one_spec b s Hb Hs) as (Hone & Hb1 & Hs1).
  set (k := first_token_len s) in *.
  set (b1 := skipn k b ++ repeat NUL k) in *.
  pose proof (holds_string_stored b1 _ Hb1 Hs1) as Hbound.
  pose proof (stored_len_skip_first s) as (Hsub & Hle & _ & _ & Hnz). fold k in Hsub, Hle, Hnz.
  cbn [HardFault.evict]. rewrite Hone. cbn [bind].
  rewrite no_room_spec by lia.
  destruct (Z.gtb_spec new_len (256 - Z.of_nat (stored_len (skipn k s)))) as [Hgt|Hle'].
  - apply (IH b1 (skipn k s) Hb1 Hs1). lia.
  - exists b1, (skipn k s). auto.
Qed.

Lemma evict_diverges (tg : target) (new_len : Z) :
  256 < new_len ->
  forall (fuel : nat) (b s : list ascii),
    len b = LOGGER_BUFFER_MAX_LENGTH -> c_str b = Done s ->
    HardFault.evict fuel tg b new_len = Timeout.
Proof.
  intros Hn. induction fuel as [|f IH]; intros b s Hb Hs; [reflexivity|].
  destruct (evict_one_spec b s Hb Hs) as (Hone & Hb1 & Hs1).
  pose proof (holds_string_stored _ _ Hb1 Hs1) as Hbound.
  cbn [HardFault.evict]. rewrite Hone. cbn [bind].
  rewrite no_room_spec by lia.
  destruct (Z.gtb_spec new_len (256 - Z.of_nat (stored_len (skipn (first_token_len s) s))));
    [|lia].
  apply (IH _ _ Hb1 Hs1).
Qed.

Lemma evict_Done_inv (tg : target) (new_len : Z) :
  forall (fuel : nat) (b s b' : list ascii) (stored' : Z),
    len b = LOGGER_BUFFER_MAX_LENGTH -> c_str b = Done s ->
    HardFault.evict fuel tg b new_len = Done (b', stored') ->
    len b' = LOGGER_BUFFER_MAX_LENGTH
    /\ exists s', c_str b' = Done s' /\ stored' = Z.of_nat (stored_len s').
Proof.
  induction fuel as [|f IH]; intros b s b' stored' Hb Hs H; [discriminate|].
  destruct (evict_one_spec b s Hb Hs) as (Hone & Hb1 & Hs1).
  cbn [HardFault.evict] in H. rewrite Hone in H. cbn [bind] in H.
  destruct (HardFault.no_room tg new_len _).
  - apply (IH _ _ _ _ Hb1 Hs1 H).
  - inversion H; subst. split; [exact Hb1|]. eexists. split; [exact Hs1|reflexivity].
Qed.

(** The closing [snprintf] stays inside the buffer and leaves a
    terminated string in it. *)
Lemma append_spec (tg : target) (st : logger_state) (b : list ascii) (stored : Z)
  (file : list ascii) (line : Z) (behind : list ascii) :
  len b = LOGGER_BUFFER_MAX_LENGTH -> 0 <= stored <= 255 ->
  let b' := mem_write b (Z.to_nat stored)
              (firstn (Z.to_nat (256 - stored - 1))
                 (HardFault.rendered file line behind) ++ [NUL]) in
  HardFault.append tg st b stored file line behind = Done (set_buffer st b')
  /\ holds_string b'.
Proof.
  intros Hb Hs b'. unfold LOGGER_BUFFER_MAX_LENGTH in Hb.
  unfold HardFault.append, LOGGER_BUFFER_MAX_LENGTH.
  rewrite size_t_of_int_nonneg by lia. rewrite to_size_t_small by lia.
  rewrite snprintf_inside by lia. cbn [bind]. fold b'.
  split; [reflexivity|]. split.
  - subst b'. rewrite len_mem_write; [exact Hb | lia |].
    rewrite len_app. unfold len at 1. rewrite length_firstn.
    change (len [NUL]) with 1. lia.
  - apply c_str_of_NUL. subst b'. unfold mem_write.
    apply in_or_app. right. apply in_or_app. left.
    apply in_or_app. right. left. reflexivity.
Qed.

Lemma holds_string_zero_fill : holds_string (zero_fill LOGGER_BUFFER_MAX_LENGTH).
Proof.
  split; [reflexivity|]. eexists. reflexivity.
Qed.

(** Every call that returns leaves a 256-byte terminated string. *)
Lemma ZB_printf_holds_string (fuel : nat) (tg : target) (st st' : logger_state)
  (file : list ascii) (line : Z) (behind : list ascii) :
  holds_string (logger_buffer st) ->
  HardFault.ZB_printf fuel tg st file line behind = Done st' ->
  holds_string (logger_buffer st').
Proof.
  intros [Hb [s Hs]] H. unfold HardFault.ZB_printf in H.
  rewrite (length_of_stored_log_spec _ _ Hs) in H. cbn [bind] in H.
  pose proof (holds_string_stored _ _ Hb Hs) as Hbound.
  rewrite (memset_all _ Hb) in H.
  destruct (Z.of_nat (stored_len s) =? 0) eqn:E0.
  - apply Z.eqb_eq in E0. rewrite E0 in H.
    destruct (append_spec tg st (zero_fill LOGGER_BUFFER_MAX_LENGTH) 0 file line behind)
      as [Ha Hh]; [reflexivity | lia |].
    rewrite Ha in H. inversion H; subst. exact Hh.
  - destruct (HardFault.stored_log_overflows tg (Z.of_nat (stored_len s))).
    + inversion H; subst. exact holds_string_zero_fill.
    + destruct (HardFault.no_room tg _ _).
      * destruct (HardFault.evict fuel tg (logger_buffer st) _) as [[b1 stored1]| |] eqn:Ee;
          try discriminate.
        cbn [bind] in H.
        destruct (evict_Done_inv tg _ fuel _ _ _ _ Hb Hs Ee) as (Hb1 & s1 & Hs1 & Hst).
        pose proof (holds_string_stored _ _ Hb1 Hs1) as Hbound1.
        destruct (append_spec tg st b1 stored1 file line behind) as [Ha Hh];
          [exact Hb1 | lia |].
        rewrite Ha in H. inversion H; subst. exact Hh.
      * destruct (append_spec tg st (logger_buffer st) (Z.of_nat (stored_len s))
                    file line behind)
          as [Ha Hh]; [exact Hb | lia |].
        rewrite Ha in H. inversion H; subst. exact Hh.
Qed.

Lemma run_holds_string (fuel : nat) (tg : target) (calls : list HardFault.call) :
  forall st st' : logger_state,
    holds_string (logger_buffer st) ->
    HardFault.run fuel tg st calls = Done st' ->
    holds_string (logger_buffer st').
Proof.
  induction calls as [|c rest IH]; intros st st' Hst H; cbn [HardFault.run] in H.
  - inversion H; subst. exact Hst.
  - destruct (HardFault.ZB_printf fuel tg st _ _ _) as [st1| |] eqn:E; try discriminate.
    cbn [bind] in H.
    apply (IH st1 st' (ZB_printf_holds_string _ _ _ _ _ _ _ Hst E) H).
Qed.

Lemma stored_log_in_range (tg : target) (b : list ascii) (stored : Z) :
  len b = LOGGER_BUFFER_MAX_LENGTH ->
  HardFault.length_of_stored_log b = Done stored ->
  0 <= stored <= 255 /\ HardFault.stored_log_overflows tg stored = false.
Proof.
  intros Hb H.
  destruct (c_str b) as [s| |] eqn:Hs;
    try (unfold HardFault.length_of_stored_log, strrchr in H; rewrite Hs in H; discriminate).
  rewrite (length_of_stored_log_spec b s Hs) in H. inversion H; subst.
  pose proof (holds_string_stored b s Hb Hs) as Hbound.
  split; [lia|].
  unfold HardFault.stored_log_overflows, HardFault.capacity, LOGGER_BUFFER_MAX_LENGTH.
  rewrite size_t_of_int_nonneg by lia.
  destruct (Z.gtb_spec (Z.of_nat (stored_len s)) 256); [lia | reflexivity].
Qed.

(** [C5] On a buffer that holds a terminated string: when some token is
    stored and the length computed for the new token exceeds 256, the
    [do ... while] loop never meets its exit condition, whatever the number
    of passes allowed; when the computed length is at most 256, the call
    returns (256 passes of the loop are always enough). *)
Theorem eviction_loop_termination (tg : target) (st : logger_state)
  (file : list ascii) (line : Z) (behind : list ascii) :
  holds_string (logger_buffer st) ->
  (256 < HardFault.new_log_length file line ->
   HardFault.length_of_stored_log (logger_buffer st) <> Done 0 ->
   forall fuel : nat, HardFault.ZB_printf fuel tg st file line behind = Timeout)
  /\ (HardFault.new_log_length file line <= 256 ->
      forall fuel : nat, (256 <= fuel)%nat ->
      exists st', HardFault.ZB_printf fuel tg st file line behind = Done st').
Proof.
  intros [Hb [s Hs]].
  pose proof (holds_string_stored _ _ Hb Hs) as Hbound.
  pose proof (new_log_length_pos file line) as Hpos.
  assert (Hov : HardFault.stored_log_overflows tg (Z.of_nat (stored_len s)) = false).
  { apply (stored_log_in_range tg (logger_buffer st)); [exact Hb|].
    apply length_of_stored_log_spec. exact Hs. }
  split.
  - intros Hlong Hne fuel. unfold HardFault.ZB_printf.
    rewrite (length_of_stored_log_spec _ _ Hs) in *. cbn [bind].
    destruct (Z.eqb_spec (Z.of_nat (stored_len s)) 0) as [E|E];
      [rewrite E in Hne; contradiction|].
    rewrite Hov. rewrite no_room_spec by lia.
    destruct (Z.gtb_spec (HardFault.new_log_length file line)
                (256 - Z.of_nat (stored_len s))); [|lia].
    rewrite (evict_diverges tg _ Hlong fuel _ _ Hb Hs). reflexivity.
  - intros Hshort fuel Hfuel. unfold HardFault.ZB_printf.
    rewrite (length_of_stored_log_spec _ _ Hs). cbn [bind].
    rewrite (memset_all _ Hb).
    destruct (Z.eqb_spec (Z.of_nat (stored_len s)) 0) as [E|E].
    + rewrite E.
      destruct (append_spec tg st (zero_fill LOGGER_BUFFER_MAX_LENGTH) 0 file line behind)
        as [Ha _]; [reflexivity | lia |].
      eexists. exact Ha.
    + rewrite Hov. rewrite no_room_spec by lia.
      destruct (Z.gtb_spec (HardFault.new_log_length file line)
                  (256 - Z.of_nat (stored_len s))).
      * destruct (evict_terminates tg (HardFault.new_log_length file line)
                    ltac:(lia) fuel _ _ Hb Hs ltac:(lia))
          as (b1 & s1 & He & Hb1 & Hs1 & Hroom).
        rewrite He. cbn [bind].
        pose proof (holds_string_stored _ _ Hb1 Hs1) as Hbound1.
        destruct (append_spec tg st b1 (Z.of_nat (stored_len s1)) file line behind)
          as [Ha _]; [exact Hb1 | lia |].
        eexists. exact Ha.
      * destruct (append_spec tg st (logger_buffer st) (Z.of_nat (stored_len s))
                    file line behind)
          as [Ha _]; [exact Hb | lia |].
        eexists. exact Ha.
Qed.

Lemma eviction_loop_termination_witness :
  (forall fuel : nat,
      HardFault.ZB_printf fuel ILP32 one_token (repeat "a"%char 260) 1 stray_bytes
      = Timeout)
  /\ (exists st',
         HardFault.ZB_printf 256 ILP32 one_token (str "src/main.c") 10 stray_bytes
         = Done st').
Proof.
  assert (H : holds_string (logger_buffer one_token)).
  { split; [reflexivity|]. eexists. reflexivity. }
  split.
  - intros fuel.
    apply (proj1 (eviction_loop_termination ILP32 one_token (repeat "a"%char 260) 1
                    stray_bytes H)).
    + vm_compute. reflexivity.
    + vm_compute. discriminate.
  - apply (proj2 (eviction_loop_termination ILP32 one_token (str "src/main.c") 10
                    stray_bytes H)).
    + vm_compute. discriminate.
    + apply Nat.le_refl.
Defined.

(** [C8] The stored length read off a 256-byte buffer by the scan for the
    last separator is never above 256, so the condition of the second
    branch of [ZB_printf] is false; in particular it is false in every
    state reached from the all-zero buffer by a sequence of calls. *)
Theorem corruption_branch_unreachable :
  (forall (tg : target) (b : list ascii) (stored : Z),
      len b = LOGGER_BUFFER_MAX_LENGTH ->
      HardFault.length_of_stored_log b = Done stored ->
      0 <= stored <= 256 /\ HardFault.stored_log_overflows tg stored = false)
  /\ (forall (fuel : nat) (tg : target) (calls : list HardFault.call)
        (st : logger_state),
        HardFault.run fuel tg initial_state calls = Done st ->
        exists stored,
          HardFault.length_of_stored_log (logger_buffer st) = Done stored
          /\ 0 <= stored <= 256
          /\ HardFault.stored_log_overflows tg stored = false).
Proof.
  split.
  - intros tg b stored Hb H.
    destruct (stored_log_in_range tg b stored Hb H) as [H1 H2]. split; [lia | exact H2].
  - intros fuel tg calls st Hrun.
    destruct (run_holds_string fuel tg calls initial_state st holds_string_zero_fill Hrun)
      as [Hb [s Hs]].
    exists (Z.of_nat (stored_len s)).
    pose proof (length_of_stored_log_spec _ _ Hs) as Hst.
    destruct (stored_log_in_range tg _ _ Hb Hst) as [H1 H2].
    split; [exact Hst|]. split; [lia | exact H2].
Qed.

Lemma corruption_branch_unreachable_witness :
  exists st stored,
    HardFault.run 256 ILP32 initial_state (repeat (main_c_10 stray_bytes) 30) = Done st
    /\ HardFault.length_of_stored_log (logger_buffer st) = Done stored
    /\ 0 <= stored <= 256
    /\ HardFault.stored_log_overflows ILP32 stored = false.
Proof.
  eexists.
  assert (Hrun : HardFault.run 256 ILP32 initial_state (repeat (main_c_10 stray_bytes) 30)
                 = Done _) by (vm_compute; reflexivity).
  destruct (proj2 corruption_branch_unreachable 256%nat ILP32 _ _ Hrun)
    as (stored & H1 & H2 & H3).
  exists stored. split; [exact Hrun|]. split; [exact H1|]. split; [exact H2 | exact H3].
Defined.

(** ** Rendering of line numbers *)

Lemma digit_token_char (n : Z) : token_char (digit (n mod 10)).
Proof.
  assert (H : 0 <= n mod 10 < 10) by (apply Z.mod_pos_bound; lia).
  assert (C : n mod 10 = 0 \/ n mod 10 = 1 \/ n mod 10 = 2 \/ n mod 10 = 3
              \/ n mod 10 = 4 \/ n mod 10 = 5 \/ n mod 10 = 6 \/ n mod 10 = 7
              \/ n mod 10 = 8 \/ n mod 10 = 9) by lia.
  unfold token_char.
  repeat (destruct C as [C|C]; [rewrite C; vm_compute; split; discriminate|]).
  rewrite C. vm_compute. split; discriminate.
Qed.

Lemma dec_fuel_token_chars (fuel : nat) :
  forall (n : Z) (acc : list ascii),
    Forall token_char acc -> Forall token_char (dec_fuel fuel n acc).
Proof.
  induction fuel as [|f IH]; intros n acc Hacc; cbn [dec_fuel]; [exact Hacc|].
  assert (Hacc' : Forall token_char (digit (n mod 10) :: acc)).
  { constructor; [apply digit_token_char | exact Hacc]. }
  destruct (n <? 10); [exact Hacc'|]. apply IH. exact Hacc'.
Qed.

Lemma decimal_token_chars (n : Z) : Forall token_char (decimal n).
Proof. unfold decimal. apply dec_fuel_token_chars. constructor. Qed.

Lemma dec_fuel_length (fuel : nat) :
  forall (n : Z) (acc : list ascii),
    0 <= n < 2 ^ Z.of_nat (S fuel) ->
    len (dec_fuel (S fuel) n acc) = len acc + 1 + log10_fuel (S fuel) n.
Proof.
  induction fuel as [|f IH]; intros n acc Hn.
  - change (2 ^ Z.of_nat 1) with 2 in Hn. cbn [dec_fuel log10_fuel].
    destruct (Z.ltb_spec n 10); [|lia].
    unfold len. cbn [length]. lia.
  - remember (S f) as g eqn:Hg. cbn [dec_fuel log10_fuel].
    destruct (Z.ltb_spec n 10) as [Hs|Hb].
    + unfold len. cbn [length]. lia.
    + subst g. rewrite IH.
      * unfold len. cbn [length]. lia.
      * split; [apply Z.div_pos; lia|].
        apply Z.div_lt_upper_bound; [lia|].
        replace (Z.of_nat (S (S f))) with (Z.of_nat (S f) + 1) in Hn by lia.
        rewrite Z.pow_add_r in Hn by lia. lia.
Qed.

Lemma decimal_length (n : Z) : 0 <= n -> len (decimal n) = floor_log10 n + 1.
Proof.
  intros Hn. unfold decimal, floor_log10.
  rewrite dec_fuel_length.
  - change (len []) with 0. lia.
  - split; [exact Hn|].
    destruct (Z.eq_dec n 0) as [E|E].
    + subst n. vm_compute. reflexivity.
    + pose proof (Z.log2_spec n ltac:(lia)) as [_ Hlt].
      pose proof (Z.log2_nonneg n).
      replace (Z.of_nat (S (Z.to_nat (Z.log2 n)))) with (Z.succ (Z.log2 n)) by lia.
      exact Hlt.
Qed.

(** ** What a call renders *)

Lemma until_NUL_no_NUL (m : list ascii) : Forall (fun c => c <> NUL) (until_NUL m).
Proof.
  induction m as [|c m IH]; cbn [until_NUL]; [constructor|].
  destruct (Ascii.eqb_spec c NUL) as [E|E]; constructor; assumption.
Qed.

Lemma token_parts (file : list ascii) (line : Z) :
  HardFault.token file line
  = GetFileNameFromPath file ++ fmt_u line ++ [HardFault.separator].
Proof. reflexivity. Qed.

(** What is rendered is the token and, behind it, the bytes read past the
    end of [separator]. *)
Lemma rendered_token (file : list ascii) (line : Z) (behind : list ascii) :
  HardFault.rendered file line behind = HardFault.token file line ++ until_NUL behind.
Proof.
  rewrite token_parts. unfold HardFault.rendered. rewrite <- !app_assoc. reflexivity.
Qed.

(** For a non-negative line the length computed with [log10] is the length
    of what ["%u"] prints, so the token is as long as [new_log_length]. *)
Lemma token_length_plain (c : HardFault.call) :
  plain_call c -> len (token_of c) = token_length c.
Proof.
  destruct c as [file line behind]. unfold plain_call, token_of, token_length.
  cbn [HardFault.call_file HardFault.call_line].
  intros [_ Hline]. rewrite token_parts.
  unfold HardFault.new_log_length, HardFault.length_of_line,
    HardFault.sizeof_separator, fmt_u.
  rewrite Z.mod_small by lia.
  rewrite !len_app, decimal_length by lia. change (len [HardFault.separator]) with 1.
  destruct (Z.eqb_spec line 0) as [E|E].
  - subst line. vm_compute (floor_log10 0). lia.
  - rewrite Z.abs_eq by lia. destruct (Z.ltb_spec line 0); lia.
Qed.

Lemma token_plain_body (c : HardFault.call) :
  plain_call c ->
  Forall token_char
    (GetFileNameFromPath (HardFault.call_file c) ++ fmt_u (HardFault.call_line c)).
Proof.
  intros [Hname _]. apply Forall_app. split; [exact Hname|]. apply decimal_token_chars.
Qed.

Lemma token_plain_wf (c : HardFault.call) : plain_call c -> wf_token (token_of c).
Proof.
  intros Hc. unfold wf_token, token_of. rewrite token_parts.
  exists (GetFileNameFromPath (HardFault.call_file c) ++ fmt_u (HardFault.call_line c)).
  split.
  - rewrite <- app_assoc. reflexivity.
  - apply token_plain_body. exact Hc.
Qed.

Lemma token_chars_no_NUL (s : list ascii) :
  Forall token_char s -> Forall (fun c => c <> NUL) s.
Proof.
  intros H. eapply Forall_impl; [|exact H]. intros c [Hc _]. exact Hc.
Qed.

Lemma rendered_no_NUL (file : list ascii) (line : Z) (behind : list ascii) :
  Forall (fun c => c <> NUL) (GetFileNameFromPath file) ->
  Forall (fun c => c <> NUL) (HardFault.rendered file line behind).
Proof.
  intros Hname. rewrite rendered_token, token_parts.
  repeat (apply Forall_app; split).
  - exact Hname.
  - apply token_chars_no_NUL. apply decimal_token_chars.
  - constructor; [discriminate | constructor].
  - apply until_NUL_no_NUL.
Qed.

Lemma In_firstn {A : Type} (x : A) (n : nat) (l : list A) :
  In x (firstn n l) -> In x l.
Proof.
  intros H. rewrite <- (firstn_skipn n l). apply in_or_app. left. exact H.
Qed.

(** ** The fault ring as a list of tokens *)

Lemma wf_token_chars (t : list ascii) :
  wf_token t -> Forall (fun c => c <> NUL) t /\ (1 <= length t)%nat.
Proof.
  intros (body & Et & Hbody). subst t. split.
  - apply Forall_app. split.
    + apply token_chars_no_NUL. exact Hbody.
    + constructor; [discriminate | constructor].
  - rewrite length_app. simpl. lia.
Qed.

Lemma concat_tokens_chars (ts : list (list ascii)) :
  Forall wf_token ts ->
  Forall (fun c => c <> NUL) (concat ts) /\ (length ts <= length (concat ts))%nat.
Proof.
  induction 1 as [|t ts Ht Hts [IH1 IH2]]; simpl.
  - split; [constructor | lia].
  - destruct (wf_token_chars t Ht) as [H1 H2]. split.
    + apply Forall_app. split; assumption.
    + rewrite length_app. lia.
Qed.

Lemma zero_fill_succ (n : Z) : 0 < n -> zero_fill n = NUL :: zero_fill (n - 1).
Proof.
  intros H. unfold zero_fill.
  replace (Z.to_nat n) with (S (Z.to_nat (n - 1))) by lia. reflexivity.
Qed.

Lemma zero_fill_app (a b : Z) :
  0 <= a -> 0 <= b -> zero_fill a ++ zero_fill b = zero_fill (a + b).
Proof.
  intros Ha Hb. unfold zero_fill. rewrite <- repeat_app. f_equal. lia.
Qed.

Lemma wf_token_no_separator (body : list ascii) :
  Forall token_char body -> ~ In HardFault.separator body.
Proof.
  intros H Hin. rewrite Forall_forall in H. destruct (H _ Hin) as [_ Hs]. congruence.
Qed.

Lemma stored_len_concat (ts : list (list ascii)) :
  Forall wf_token ts -> stored_len (concat ts) = length (concat ts).
Proof.
  induction 1 as [|t ts (body & Et & Hbody) Hts IH]; [reflexivity|].
  subst t. cbn [concat]. rewrite <- app_assoc. cbn [app].
  rewrite stored_len_split, IH, !length_app. simpl. lia.
Qed.

Lemma first_token_len_concat (t rest : list ascii) :
  wf_token t -> first_token_len (t ++ rest) = length t.
Proof.
  intros (body & Et & Hbody). subst t. rewrite <- app_assoc. cbn [app].
  rewrite first_token_len_split by (apply wf_token_no_separator; exact Hbody).
  rewrite length_app. simpl. lia.
Qed.

(** Characters behind the last token do not count as stored. *)
Lemma stored_len_stray (s stray : list ascii) :
  ~ In HardFault.separator stray -> stored_len (s ++ stray) = stored_len s.
Proof.
  intros H. unfold stored_len. rewrite rindex_of_app.
  apply rindex_of_None in H. rewrite H. reflexivity.
Qed.

Lemma stored_len_ring (ts : list (list ascii)) (stray : list ascii) :
  Forall wf_token ts -> ~ In HardFault.separator stray ->
  stored_len (concat ts ++ stray) = length (concat ts).
Proof.
  intros Hts Hstray. rewrite stored_len_stray by exact Hstray.
  apply stored_len_concat. exact Hts.
Qed.

Lemma ring_holds_bound (b : list ascii) (ts : list (list ascii)) :
  ring_holds b ts -> len (concat ts) <= 255 /\ (length ts <= 255)%nat.
Proof.
  intros (Hb & Hts & stray & Hs & Hstray).
  pose proof (holds_string_stored b _ Hb Hs) as H.
  rewrite (stored_len_ring ts stray Hts Hstray) in H.
  destruct (concat_tokens_chars ts Hts) as [_ Hl].
  unfold len. split; lia.
Qed.

(** The loop on a buffer of tokens drops tokens from the front, whole, and
    stops at the first one after which the new token has room. *)
Lemma evict_ring (tg : target) (new_len : Z) :
  0 <= new_len <= 256 ->
  forall (ts : list (list ascii)) (fuel : nat) (b stray : list ascii),
    len b = LOGGER_BUFFER_MAX_LENGTH ->
    c_str b = Done (concat ts ++ stray) ->
    Forall wf_token ts -> ~ In HardFault.separator stray ->
    256 - len (concat ts) < new_len ->
    (length ts <= fuel)%nat ->
    exists ts1 ts2 b',
      ts = ts1 ++ ts2
      /\ HardFault.evict fuel tg b new_len = Done (b', len (concat ts2))
      /\ len b' = LOGGER_BUFFER_MAX_LENGTH
      /\ c_str b' = Done (concat ts2 ++ stray)
      /\ new_len <= 256 - len (concat ts2)
      /\ forall a u, ts1 = a ++ [u] -> 256 - len (concat (u :: ts2)) < new_len.
Proof.
  intros Hn. induction ts as [|t ts IH]; intros fuel b stray Hb Hs Hwf Hstray Hfull Hfuel.
  - change (len (concat [])) with 0 in Hfull. lia.
  - destruct fuel as [|f]; [simpl in Hfuel; lia|].
    inversion Hwf as [|t' ts' Ht Hts]; subst.
    destruct (evict_one_spec b _ Hb Hs) as (Hone & Hb1 & Hs1).
    cbn [concat] in Hone, Hb1, Hs1. rewrite <- app_assoc in Hone, Hb1, Hs1.
    rewrite (first_token_len_concat t _ Ht) in Hone, Hb1, Hs1.
    rewrite skipn_app, skipn_all, Nat.sub_diag in Hone, Hs1. cbn [skipn app] in Hone, Hs1.
    rewrite (stored_len_ring ts stray Hts Hstray) in Hone.
    pose proof (holds_string_stored _ _ Hb1 Hs1) as Hbound.
    rewrite (stored_len_ring ts stray Hts Hstray) in Hbound.
    cbn [HardFault.evict]. rewrite Hone. cbn [bind].
    fold (len (concat ts)).
    rewrite no_room_spec by (unfold len; lia).
    destruct (Z.gtb_spec new_len (256 - len (concat ts))) as [Hgt|Hle].
    + destruct (IH f _ stray Hb1 Hs1 Hts Hstray)
        as (ts1 & ts2 & b' & E & He & Hb' & Hs' & Hroom & Hmin).
      * lia.
      * simpl in Hfuel. lia.
      * exists (t :: ts1), ts2, b'. subst ts.
        split; [reflexivity|]. split; [exact He|]. split; [exact Hb'|].
        split; [exact Hs'|]. split; [exact Hroom|].
        intros a u Ea. destruct a as [|x a].
        -- destruct ts1 as [|y ts1]; [|destruct ts1; discriminate].
           cbn [app] in Ea. inversion Ea; subst. cbn [app] in Hfull. exact Hfull.
        -- cbn [app] in Ea. inversion Ea; subst. apply (Hmin a u eq_refl).
    + eexists [t], ts, _. split; [reflexivity|]. split; [reflexivity|].
      split; [exact Hb1|]. split; [exact Hs1|]. split; [exact Hle|].
      intros a u Ea. destruct a as [|x a].
      * cbn [app] in Ea. inversion Ea; subst. exact Hfull.
      * destruct a; discriminate.
Qed.

(** The closing [snprintf] on a buffer whose string is [s] and characters
    that do not count: it writes behind [s] as much of the rendered text as
    leaves a byte for the terminator. *)
Lemma append_ring (tg : target) (st : logger_state) (b s stray : list ascii)
  (file : list ascii) (line : Z) (behind : list ascii) :
  len b = LOGGER_BUFFER_MAX_LENGTH ->
  c_str b = Done (s ++ stray) ->
  len s <= 255 ->
  Forall (fun c => c <> NUL) (GetFileNameFromPath file) ->
  exists st',
    HardFault.append tg st b (len s) file line behind = Done st'
    /\ st' = set_buffer st (logger_buffer st')
    /\ len (logger_buffer st') = LOGGER_BUFFER_MAX_LENGTH
    /\ c_str (logger_buffer st')
       = Done (s ++ firstn (Z.to_nat (255 - len s))
                       (HardFault.rendered file line behind)).
Proof.
  intros Hb Hs Hlen Hname. pose proof (len_nonneg s) as Hnn.
  destruct (append_spec tg st b (len s) file line behind Hb) as [Ha [Hb' _]]; [lia|].
  eexists. split; [exact Ha|]. cbn [logger_buffer set_buffer].
  split; [reflexivity|]. split; [exact Hb'|].
  destruct (c_str_split b _ Hs) as (rest & Eb & Hnz).
  apply Forall_app in Hnz. destruct Hnz as [Hnz _].
  unfold mem_write. replace (Z.to_nat (len s)) with (length s) by (unfold len; lia).
  rewrite Eb at 1. rewrite <- app_assoc.
  rewrite firstn_app, firstn_all, Nat.sub_diag, firstn_O, app_nil_r.
  replace (256 - len s - 1) with (255 - len s) by lia.
  rewrite <- (app_assoc _ [NUL]). rewrite app_assoc. cbn [app].
  apply c_str_app_NUL. apply Forall_app. split; [exact Hnz|].
  pose proof (rendered_no_NUL file line behind Hname) as Hr.
  rewrite Forall_forall in *. intros x Hx. apply Hr. exact (In_firstn _ _ _ Hx).
Qed.

(** One call on a buffer of tokens, for any line and any bytes behind
    [separator]: tokens are dropped from the front, whole, no more of them
    than the computed length asks for, and the rendered text is written
    behind the tokens kept. *)
Lemma ZB_printf_ring (tg : target) (st : logger_state) (ts : list (list ascii))
  (c : HardFault.call) (fuel : nat) :
  ring_holds (logger_buffer st) ts ->
  Forall (fun x => x <> NUL) (GetFileNameFromPath (HardFault.call_file c)) ->
  token_length c <= 256 ->
  (256 <= fuel)%nat ->
  exists ts1 ts2 st',
    ts = ts1 ++ ts2
    /\ HardFault.ZB_printf fuel tg st (HardFault.call_file c) (HardFault.call_line c)
         (HardFault.call_behind c) = Done st'
    /\ st' = set_buffer st (logger_buffer st')
    /\ len (logger_buffer st') = LOGGER_BUFFER_MAX_LENGTH
    /\ c_str (logger_buffer st')
       = Done (concat ts2
               ++ firstn (Z.to_nat (255 - len (concat ts2))) (rendered_of c))
    /\ token_length c <= 256 - len (concat ts2)
    /\ (token_length c <= 256 - len (concat ts) -> ts1 = [])
    /\ (forall a u, ts1 = a ++ [u] ->
        256 - len (concat (u :: ts2)) < token_length c).
Proof.
  intros Hring Hname Hmax Hfuel.
  destruct (ring_holds_bound _ _ Hring) as [Hlen Hcount].
  destruct Hring as (Hb & Hwf & stray & Hs & Hstray).
  pose proof (new_log_length_pos (HardFault.call_file c) (HardFault.call_line c)) as Hpos.
  fold (token_length c) in Hpos.
  pose proof (len_nonneg (concat ts)) as Hnn.
  unfold HardFault.ZB_printf.
  rewrite (length_of_stored_log_spec _ _ Hs). cbn [bind].
  rewrite (stored_len_ring ts stray Hwf Hstray). fold (len (concat ts)).
  fold (token_length c). unfold rendered_of.
  destruct (Z.eqb_spec (len (concat ts)) 0) as [E0|E0].
  - assert (ts = []) as ->.
    { destruct (concat_tokens_chars ts Hwf) as [_ Hl]. unfold len in E0.
      destruct ts; [reflexivity | cbn [length] in Hl; lia]. }
    rewrite (memset_all _ Hb). rewrite E0.
    destruct (append_ring tg st (zero_fill LOGGER_BUFFER_MAX_LENGTH) [] []
                (HardFault.call_file c) (HardFault.call_line c) (HardFault.call_behind c))
      as (st' & Ha & Hframe & Hb' & Hs'); [reflexivity | reflexivity | cbn; lia | exact Hname |].
    change (len []) with 0 in Ha, Hs'. cbn [app] in Hs'.
    exists [], [], st'. split; [reflexivity|]. split; [exact Ha|].
    split; [exact Hframe|]. split; [exact Hb'|]. split; [exact Hs'|].
    change (len (concat [])) with 0. split; [lia|]. split; [reflexivity|].
    intros a u Ea. destruct a; discriminate.
  - assert (Hov : HardFault.stored_log_overflows tg (len (concat ts)) = false).
    { apply (stored_log_in_range tg (logger_buffer st)); [exact Hb|].
      rewrite (length_of_stored_log_spec _ _ Hs), (stored_len_ring ts stray Hwf Hstray).
      reflexivity. }
    rewrite Hov. rewrite no_room_spec by lia.
    destruct (Z.gtb_spec (token_length c) (256 - len (concat ts))) as [Hgt|Hle].
    + destruct (evict_ring tg (token_length c) ltac:(lia) ts fuel _ stray Hb Hs Hwf Hstray)
        as (ts1 & ts2 & b' & E & He & Hb' & Hs' & Hroom & Hmin); [lia | lia |].
      rewrite He. cbn [bind].
      pose proof (holds_string_stored _ _ Hb' Hs') as Hbound2.
      assert (Hwf2 : Forall wf_token ts2).
      { rewrite E in Hwf. apply Forall_app in Hwf. tauto. }
      rewrite (stored_len_ring ts2 stray Hwf2 Hstray) in Hbound2.
      destruct (append_ring tg st b' (concat ts2) stray
                  (HardFault.call_file c) (HardFault.call_line c) (HardFault.call_behind c))
        as (st' & Ha & Hframe & Hb'' & Hs''); [exact Hb' | exact Hs' | unfold len; lia | exact Hname |].
      exists ts1, ts2, st'. split; [exact E|]. split; [exact Ha|].
      split; [exact Hframe|]. split; [exact Hb''|]. split; [exact Hs''|].
      split; [exact Hroom|]. split; [lia | exact Hmin].
    + destruct (append_ring tg st (logger_buffer st) (concat ts) stray
                  (HardFault.call_file c) (HardFault.call_line c) (HardFault.call_behind c))
        as (st' & Ha & Hframe & Hb' & Hs'); [exact Hb | exact Hs | lia | exact Hname |].
      exists [], ts, st'. split; [reflexivity|]. split; [exact Ha|].
      split; [exact Hframe|]. split; [exact Hb'|]. split; [exact Hs'|].
      split; [exact Hle|]. split; [reflexivity|].
      intros a u Ea. destruct a; discriminate.
Qed.

Lemma plain_name_no_NUL (c : HardFault.call) :
  plain_call c -> Forall (fun x => x <> NUL) (GetFileNameFromPath (HardFault.call_file c)).
Proof. intros [H _]. apply token_chars_no_NUL. exact H. Qed.

(** A plain token written with a byte to spare is whole in the buffer, and
    the stray bytes behind it hold no separator when the call is quiet. *)
Lemma ring_holds_after (b : list ascii) (ts2 : list (list ascii)) (c : HardFault.call) :
  len b = LOGGER_BUFFER_MAX_LENGTH -> Forall wf_token ts2 ->
  plain_call c -> quiet_call c ->
  c_str b = Done (concat ts2
                  ++ firstn (Z.to_nat (255 - len (concat ts2))) (rendered_of c)) ->
  token_length c <= 255 - len (concat ts2) ->
  ring_holds b (ts2 ++ [token_of c]).
Proof.
  intros Hb Hwf Hplain Hquiet Hs Hroom.
  pose proof (token_length_plain c Hplain) as Htok.
  split; [exact Hb|]. split.
  - apply Forall_app. split; [exact Hwf|].
    constructor; [apply token_plain_wf; exact Hplain | constructor].
  - exists (firstn (Z.to_nat (255 - len (concat ts2)) - length (token_of c))
              (until_NUL (HardFault.call_behind c))).
    split.
    + rewrite Hs. f_equal. rewrite concat_app. cbn [concat]. rewrite app_nil_r.
      rewrite <- app_assoc. f_equal.
      unfold rendered_of. rewrite rendered_token. fold (token_of c).
      rewrite firstn_app. f_equal.
      apply firstn_all2. unfold len in *. lia.
    + intros Hin. apply Hquiet. exact (In_firstn _ _ _ Hin).
Qed.

(** A plain token that fills the free space to the last byte loses its
    separator to the terminator: the buffer holds the tokens it held, and
    behind them the new file name and line. *)
Lemma ring_holds_exact_fill (b : list ascii) (ts2 : list (list ascii))
  (c : HardFault.call) :
  len b = LOGGER_BUFFER_MAX_LENGTH -> Forall wf_token ts2 ->
  plain_call c ->
  c_str b = Done (concat ts2
                  ++ firstn (Z.to_nat (255 - len (concat ts2))) (rendered_of c)) ->
  token_length c = 256 - len (concat ts2) ->
  c_str b = Done (concat ts2 ++ GetFileNameFromPath (HardFault.call_file c)
                             ++ fmt_u (HardFault.call_line c))
  /\ ring_holds b ts2.
Proof.
  intros Hb Hwf Hplain Hs Hfill.
  pose proof (token_length_plain c Hplain) as Htok.
  assert (Hcut : firstn (Z.to_nat (255 - len (concat ts2))) (rendered_of c)
                 = GetFileNameFromPath (HardFault.call_file c)
                   ++ fmt_u (HardFault.call_line c)).
  { unfold rendered_of. rewrite rendered_token, token_parts.
    unfold token_of in Htok. rewrite token_parts in Htok.
    rewrite app_assoc in Htok. rewrite len_app in Htok. change (len [HardFault.separator]) with 1 in Htok.
    rewrite (app_assoc (GetFileNameFromPath _)). rewrite <- app_assoc.
    apply firstn_app_exact. unfold len in *. lia. }
  rewrite Hcut in Hs. split; [exact Hs|].
  split; [exact Hb|]. split; [exact Hwf|].
  eexists. split; [exact Hs|].
  apply wf_token_no_separator. apply token_plain_body. exact Hplain.
Qed.

Lemma tokens_aux_token (body rest : list ascii) :
  ~ In HardFault.separator body ->
  forall cur,
    HardFault.tokens_aux cur (body ++ HardFault.separator :: rest)
    = (rev cur ++ body ++ [HardFault.separator]) :: HardFault.tokens_aux [] rest.
Proof.
  induction body as [|x body IH]; intros Hbody cur; cbn [app HardFault.tokens_aux].
  - rewrite Ascii.eqb_refl. reflexivity.
  - destruct (Ascii.eqb_spec x HardFault.separator) as [E|E].
    + exfalso. apply Hbody. left. exact E.
    + rewrite IH by (intros F; apply Hbody; right; exact F).
      cbn [rev]. rewrite <- app_assoc. reflexivity.
Qed.

Lemma tokens_aux_stray (stray : list ascii) :
  ~ In HardFault.separator stray ->
  forall cur, HardFault.tokens_aux cur stray = [].
Proof.
  induction stray as [|x stray IH]; intros H cur; cbn [HardFault.tokens_aux]; [reflexivity|].
  destruct (Ascii.eqb_spec x HardFault.separator) as [E|E].
  - exfalso. apply H. left. exact E.
  - apply IH. intros F. apply H. right. exact F.
Qed.

Lemma tokens_aux_ring (ts : list (list ascii)) (stray : list ascii) :
  Forall wf_token ts -> ~ In HardFault.separator stray ->
  HardFault.tokens_aux [] (concat ts ++ stray) = ts.
Proof.
  intros Hts Hstray.
  induction Hts as [|t ts (body & Et & Hbody) Hts IH].
  - apply tokens_aux_stray. exact Hstray.
  - subst t. cbn [concat]. rewrite <- !app_assoc. cbn [app].
    rewrite tokens_aux_token by (apply wf_token_no_separator; exact Hbody).
    cbn [rev app]. rewrite IH. reflexivity.
Qed.

(** Reading a buffer of tokens gives the tokens. *)
Lemma scan_ring (b : list ascii) (ts : list (list ascii)) :
  ring_holds b ts -> HardFault.scan b = Done ts.
Proof.
  intros (_ & Hts & stray & Hs & Hstray). unfold HardFault.scan.
  rewrite Hs. cbn [bind]. rewrite (tokens_aux_ring ts stray Hts Hstray). reflexivity.
Qed.

Lemma total_length_app (a b : list HardFault.call) :
  total_length (a ++ b) = total_length a + total_length b.
Proof.
  induction a as [|c a IH]; simpl; [reflexivity|]. rewrite IH. lia.
Qed.

Lemma total_length_nonneg (a : list HardFault.call) : 0 <= total_length a.
Proof.
  induction a as [|c a IH]; simpl; [lia|].
  pose proof (new_log_length_pos (HardFault.call_file c) (HardFault.call_line c)).
  unfold token_length. lia.
Qed.

Lemma concat_tokens_length (calls : list HardFault.call) :
  Forall plain_call calls ->
  len (concat (map token_of calls)) = total_length calls.
Proof.
  induction 1 as [|c calls Hc Hcalls IH]; [reflexivity|].
  cbn [map concat total_length fold_right]. rewrite len_app, IH.
  rewrite (token_length_plain c Hc). reflexivity.
Qed.

Lemma plain_tokens_wf (calls : list HardFault.call) :
  Forall plain_call calls -> Forall wf_token (map token_of calls).
Proof.
  induction 1 as [|c calls Hc Hcalls IH]; cbn [map]; constructor.
  - apply token_plain_wf. exact Hc.
  - exact IH.
Qed.

Lemma newest_that_fit_nil : newest_that_fit [] [].
Proof.
  split; [exists []; reflexivity|]. split; [simpl; lia|].
  intros dropped c E. destruct dropped; discriminate.
Qed.

Lemma exists_last_or_nil {A : Type} (l : list A) :
  l = [] \/ exists l' a, l = l' ++ [a].
Proof.
  destruct l as [|x l]; [left; reflexivity|]. right.
  destruct (@exists_last A (x :: l)) as (l' & a & E); [discriminate|].
  exists l', a. exact E.
Qed.

(** When all the calls fit, all are kept. *)
Lemma newest_that_fit_all (kept calls : list HardFault.call) :
  newest_that_fit kept calls -> total_length calls <= 255 -> kept = calls.
Proof.
  intros ([dropped E] & _ & Hmax) Hfit.
  destruct (exists_last_or_nil dropped) as [->|(d & x & ->)].
  - symmetry. exact E.
  - rewrite <- app_assoc in E. cbn [app] in E.
    pose proof (Hmax d x E) as H. rewrite E in Hfit.
    rewrite total_length_app in Hfit. pose proof (total_length_nonneg d). lia.
Qed.

(** The most recent call is among the calls kept. *)
Lemma newest_that_fit_last (kept earlier : list HardFault.call) (c : HardFault.call) :
  newest_that_fit kept (earlier ++ [c]) -> token_length c <= 255 ->
  exists k, kept = k ++ [c].
Proof.
  intros ([dropped E] & _ & Hmax) Hc.
  destruct (exists_last_or_nil kept) as [->|(k & x & ->)].
  - rewrite app_nil_r in E. subst dropped.
    pose proof (Hmax earlier c eq_refl) as H.
    cbn [total_length fold_right] in H. lia.
  - rewrite app_assoc in E. apply app_inj_tail in E. destruct E as [_ ->].
    exists k. reflexivity.
Qed.

(** A sequence of calls on a buffer that holds the tokens of the most
    recent calls made so far. *)
Lemma run_ring (tg : target) (fuel : nat) :
  (256 <= fuel)%nat ->
  forall (rest done kept : list HardFault.call) (st : logger_state),
    newest_that_fit kept done ->
    ring_holds (logger_buffer st) (map token_of kept) ->
    Forall plain_call (done ++ rest) ->
    Forall quiet_call rest ->
    Forall (fun c => token_length c <= 256) rest ->
    (forall r, contiguous r (done ++ rest) -> total_length r <> 256) ->
    exists st' kept',
      HardFault.run fuel tg st rest = Done st'
      /\ newest_that_fit kept' (done ++ rest)
      /\ ring_holds (logger_buffer st') (map token_of kept').
Proof.
  intros Hfuel. induction rest as [|c rest IH];
    intros done kept st Hnew Hring Hplain Hquiet Hmax Hruns.
  - exists st, kept. rewrite app_nil_r. cbn [HardFault.run]. auto.
  - destruct Hnew as ([dropped Hdone] & Hfit & Hlongest).
    assert (Hpk : Forall plain_call kept).
    { apply Forall_app in Hplain. destruct Hplain as [Hd _].
      rewrite Hdone in Hd. apply Forall_app in Hd. tauto. }
    assert (Hpc : plain_call c).
    { apply Forall_app in Hplain. destruct Hplain as [_ Hr]. inversion Hr; assumption. }
    inversion Hmax as [|c' rest' Hc Hrest]; subst c' rest'.
    inversion Hquiet as [|c' rest' Hqc Hqrest]; subst c' rest'.
    destruct (ZB_printf_ring tg st (map token_of kept) c fuel Hring
                (plain_name_no_NUL c Hpc) Hc Hfuel)
      as (ts1 & ts2 & st1 & E & Hcall & _ & Hb1 & Hs1 & Hroom & Hnone & Hmin).
    apply map_eq_app in E. destruct E as (k1 & k2 & Ek & E1 & E2).
    subst ts1 ts2.
    assert (Hp1 : Forall plain_call k1 /\ Forall plain_call k2).
    { rewrite Ek in Hpk. apply Forall_app in Hpk. exact Hpk. }
    destruct Hp1 as [Hp1 Hp2].
    rewrite (concat_tokens_length k2 Hp2) in Hroom.
    assert (Hne : total_length (k2 ++ [c]) <> 256).
    { apply Hruns. exists (dropped ++ k1), rest. rewrite Hdone, Ek.
      rewrite <- !app_assoc. reflexivity. }
    rewrite total_length_app in Hne. cbn [total_length fold_right] in Hne.
    rewrite Z.add_0_r in Hne.
    assert (Hring1 : ring_holds (logger_buffer st1) (map token_of (k2 ++ [c]))).
    { rewrite map_app. cbn [map].
      apply ring_holds_after; try assumption.
      - apply plain_tokens_wf. exact Hp2.
      - rewrite (concat_tokens_length k2 Hp2). lia. }
    destruct (IH (done ++ [c]) (k2 ++ [c]) st1) as (st' & kept' & Hrun & Hnew' & Hring').
    + split; [|split].
      * exists (dropped ++ k1). rewrite Hdone, Ek. rewrite <- !app_assoc. reflexivity.
      * rewrite total_length_app. cbn [total_length fold_right]. lia.
      * intros dropped' x Ex.
        change (x :: k2 ++ [c]) with ((x :: k2) ++ [c]) in Ex.
        rewrite app_assoc in Ex. apply app_inj_tail in Ex. destruct Ex as [Ex _].
        change (x :: k2 ++ [c]) with ((x :: k2) ++ [c]).
        rewrite total_length_app. cbn [total_length fold_right].
        fold (total_length k2). rewrite Z.add_0_r.
        pose proof (new_log_length_pos (HardFault.call_file c) (HardFault.call_line c))
          as Hposc. fold (token_length c) in Hposc.
        destruct (exists_last_or_nil k1) as [->|(a & u & ->)].
        -- cbn [app] in Ek. subst k2.
           pose proof (Hlongest dropped' x Ex) as H.
           cbn [total_length fold_right] in H. fold (total_length kept) in H. lia.
        -- assert (u = x) as ->.
           { rewrite Hdone, Ek in Ex. rewrite <- !app_assoc in Ex.
             cbn [app] in Ex.
             change (dropped' ++ x :: k2) with (dropped' ++ [x] ++ k2) in Ex.
             change (dropped ++ a ++ u :: k2) with (dropped ++ a ++ [u] ++ k2) in Ex.
             rewrite !app_assoc in Ex. apply app_inv_tail in Ex.
             apply app_inj_tail in Ex. destruct Ex as [_ Ex]. exact Ex. }
           specialize (Hmin (map token_of a) (token_of x)).
           rewrite map_app in Hmin. specialize (Hmin eq_refl).
           cbn [concat] in Hmin. rewrite len_app in Hmin.
           rewrite (concat_tokens_length k2 Hp2) in Hmin.
           assert (Hpx : plain_call x).
           { apply Forall_app in Hp1. destruct Hp1 as [_ Hp1].
             inversion Hp1; assumption. }
           rewrite (token_length_plain x Hpx) in Hmin. lia.
    + exact Hring1.
    + rewrite <- app_assoc. exact Hplain.
    + exact Hqrest.
    + exact Hrest.
    + rewrite <- app_assoc. exact Hruns.
    + exists st', kept'. rewrite <- app_assoc in Hnew'.
      split; [|split; assumption].
      cbn [HardFault.run]. rewrite Hcall. cbn [bind]. exact Hrun.
Qed.

Lemma ring_holds_initial : ring_holds (logger_buffer initial_state) [].
Proof.
  split; [reflexivity|]. split; [constructor|].
  exists []. split; [reflexivity|]. intros [].
Qed.

(** The state after a sequence of calls from the all-zero buffer. *)
Lemma ring_after_calls (tg : target) (fuel : nat) (calls : list HardFault.call) :
  (256 <= fuel)%nat ->
  Forall plain_call calls ->
  Forall quiet_call calls ->
  Forall (fun c => token_length c <= 256) calls ->
  (forall r, contiguous r calls -> total_length r <> 256) ->
  exists st kept,
    HardFault.run fuel tg initial_state calls = Done st
    /\ newest_that_fit kept calls
    /\ HardFault.scan (logger_buffer st) = Done (map token_of kept).
Proof.
  intros Hfuel Hplain Hquiet Hmax Hruns.
  destruct (run_ring tg fuel Hfuel calls [] [] initial_state
              newest_that_fit_nil ring_holds_initial Hplain Hquiet Hmax Hruns)
    as (st & kept & Hrun & Hnew & Hring).
  cbn [app] in Hnew. exists st, kept.
  split; [exact Hrun|]. split; [exact Hnew|]. exact (scan_ring _ _ Hring).
Qed.

Lemma contiguous_prefix {A : Type} (r done rest : list A) :
  contiguous r done -> contiguous r (done ++ rest).
Proof.
  intros (before & after & E). exists before, (after ++ rest).
  rewrite E, <- !app_assoc. reflexivity.
Qed.

(** [C3] (as amended) Calls are made from the all-zero buffer.  In each of
    them the last component of the file name has no separator character,
    the line is a non-negative [int], no separator character lies between
    the array [separator] and the first zero byte behind it, and the token
    is at most 256 bytes long; no run of consecutive calls has tokens that
    add up to exactly 256 bytes.  Then every call returns, and after every
    one of them the tokens read from the buffer, left to right, are the
    tokens of the most recent calls, whole and in the order of the calls:
    those of the longest suffix of the calls made so far that fits in 255
    bytes, which the most recent call always belongs to.  So a call drops
    the oldest tokens only, whole, one after the other, and stops as soon
    as the remaining ones and the new token fit. *)
Theorem ring_keeps_newest_tokens (tg : target) (fuel : nat)
  (calls : list HardFault.call) :
  (256 <= fuel)%nat ->
  Forall plain_call calls ->
  Forall quiet_call calls ->
  Forall (fun c => token_length c <= 256) calls ->
  (forall r, contiguous r calls -> total_length r <> 256) ->
  (exists st kept,
      HardFault.run fuel tg initial_state calls = Done st
      /\ newest_that_fit kept calls
      /\ HardFault.scan (logger_buffer st) = Done (map token_of kept)
      /\ is_suffix (map token_of kept) (map token_of calls)
      /\ (forall earlier c, calls = earlier ++ [c] -> exists k, kept = k ++ [c]))
  /\ (forall done rest, calls = done ++ rest ->
      exists st kept,
        HardFault.run fuel tg initial_state done = Done st
        /\ newest_that_fit kept done
        /\ HardFault.scan (logger_buffer st) = Done (map token_of kept)).
Proof.
  intros Hfuel Hplain Hquiet Hmax Hruns. split.
  - destruct (ring_after_calls tg fuel calls Hfuel Hplain Hquiet Hmax Hruns)
      as (st & kept & Hrun & Hnew & Hscan).
    exists st, kept.
    split; [exact Hrun|]. split; [exact Hnew|]. split; [exact Hscan|]. split.
    + destruct Hnew as ([dropped E] & _). exists (map token_of dropped).
      rewrite E, map_app. reflexivity.
    + intros earlier c E. subst calls.
      apply (newest_that_fit_last kept earlier c Hnew).
      assert (Hc : token_length c <= 256).
      { rewrite Forall_forall in Hmax. apply Hmax. apply in_or_app. right. left.
        reflexivity. }
      assert (Hne : total_length [c] <> 256).
      { apply Hruns. exists earlier, []. reflexivity. }
      cbn [total_length fold_right] in Hne. lia.
  - intros done rest E. subst calls.
    apply Forall_app in Hplain. apply Forall_app in Hquiet. apply Forall_app in Hmax.
    apply (ring_after_calls tg fuel done Hfuel); try tauto.
    intros r Hr. apply Hruns. apply contiguous_prefix. exact Hr.
Qed.

Lemma total_length_repeat (c : HardFault.call) (r : list HardFault.call) :
  Forall (fun x => token_length x = token_length c) r ->
  total_length r = token_length c * Z.of_nat (length r).
Proof.
  induction 1 as [|x r Hx Hr IH]; [simpl; lia|].
  cbn [total_length fold_right length].
  fold (total_length r). rewrite IH, Hx. lia.
Qed.

Lemma main_c_10_plain (behind : list ascii) : plain_call (main_c_10 behind).
Proof.
  split; [|cbn; lia].
  vm_compute. repeat (constructor; [split; discriminate|]). constructor.
Qed.

Lemma stray_bytes_quiet : ~ In HardFault.separator (until_NUL stray_bytes).
Proof.
  vm_compute. intros [H|[H|[]]]; discriminate.
Qed.

Lemma contiguous_Forall {A : Type} (P : A -> Prop) (r l : list A) :
  contiguous r l -> Forall P l -> Forall P r.
Proof.
  intros (before & after & E) H. subst l.
  apply Forall_app in H. destruct H as [_ H].
  apply Forall_app in H. tauto.
Qed.

Lemma ring_keeps_newest_tokens_witness :
  (exists st kept,
      HardFault.run 256 ILP32 initial_state (repeat (main_c_10 stray_bytes) 30) = Done st
      /\ newest_that_fit kept (repeat (main_c_10 stray_bytes) 30)
      /\ HardFault.scan (logger_buffer st) = Done (map token_of kept)
      /\ map token_of kept = repeat (str "main.c10-") 28
      /\ is_suffix (map token_of kept) (map token_of (repeat (main_c_10 stray_bytes) 30))
      /\ (forall earlier c, repeat (main_c_10 stray_bytes) 30 = earlier ++ [c] ->
          exists k, kept = k ++ [c]))
  /\ (forall done rest, repeat (main_c_10 stray_bytes) 30 = done ++ rest ->
      exists st kept,
        HardFault.run 256 ILP32 initial_state done = Done st
        /\ newest_that_fit kept done
        /\ HardFault.scan (logger_buffer st) = Done (map token_of kept)).
Proof.
  destruct (ring_keeps_newest_tokens ILP32 256 (repeat (main_c_10 stray_bytes) 30))
    as [(st & kept & Hrun & Hnew & Hscan & Hsuf & Hlast) Hprefix].
  - apply Nat.le_refl.
  - apply Forall_forall. intros c Hc. apply repeat_spec in Hc. subst c.
    apply main_c_10_plain.
  - apply Forall_forall. intros c Hc. apply repeat_spec in Hc. subst c.
    exact stray_bytes_quiet.
  - apply Forall_forall. intros c Hc. apply repeat_spec in Hc. subst c.
    vm_compute. discriminate.
  - intros r Hr.
    assert (Hall : Forall (fun x => token_length x = token_length (main_c_10 stray_bytes)) r).
    { apply (contiguous_Forall _ r _ Hr).
      apply Forall_forall. intros x Hx. apply repeat_spec in Hx. subst x. reflexivity. }
    rewrite (total_length_repeat _ r Hall).
    change (token_length (main_c_10 stray_bytes)) with 9. lia.
  - split; [|exact Hprefix].
    exists st, kept. split; [exact Hrun|]. split; [exact Hnew|]. split; [exact Hscan|].
    split; [|split; [exact Hsuf | exact Hlast]].
    assert (Hread : HardFault.scan (logger_buffer st)
                    = Done (repeat (str "main.c10-") 28)).
    { assert (Hc := Hrun). vm_compute in Hc. apply Done_inj in Hc. rewrite <- Hc.
      vm_compute. reflexivity. }
    rewrite Hscan in Hread. exact (Done_inj _ _ Hread).
Defined.

(** [C3] (as stated) fails when the file name itself contains the
    separator: after the single call [ZB_printf("src/my-file.c", 7)] the
    buffer reads as the two tokens [my-] and [file.c7-], which is not a
    suffix of the one token appended. *)
Lemma separator_in_file_name_splits_token :
  exists st toks,
    HardFault.run 256 ILP32 initial_state
      [{| HardFault.call_file := str "src/my-file.c";
          HardFault.call_line := 7;
          HardFault.call_behind := stray_bytes |}] = Done st
    /\ HardFault.token (str "src/my-file.c") 7 = str "my-file.c7-"
    /\ HardFault.scan (logger_buffer st) = Done toks
    /\ toks = [str "my-"; str "file.c7-"]
    /\ ~ is_suffix toks [str "my-file.c7-"].
Proof.
  eexists. eexists.
  split; [vm_compute; reflexivity|].
  split; [vm_compute; reflexivity|].
  split; [vm_compute; reflexivity|].
  split; [reflexivity|].
  intros [dropped E]. apply (f_equal (@length (list ascii))) in E.
  rewrite length_app in E. cbn [length] in E. lia.
Qed.

Lemma map_constant {A B : Type} (f : A -> B) (v : B) (l : list A) :
  Forall (fun x => f x = v) l -> map f l = repeat v (length l).
Proof.
  induction 1 as [|x l Hx Hl IH]; [reflexivity|].
  cbn [map length repeat]. rewrite Hx, IH. reflexivity.
Qed.

(** The first call on the all-zero buffer. *)
Lemma first_call_string (tg : target) (fuel : nat) (c : HardFault.call) :
  Forall (fun x => x <> NUL) (GetFileNameFromPath (HardFault.call_file c)) ->
  token_length c <= 256 -> (256 <= fuel)%nat ->
  exists st',
    HardFault.ZB_printf fuel tg initial_state (HardFault.call_file c)
      (HardFault.call_line c) (HardFault.call_behind c) = Done st'
    /\ c_str (logger_buffer st') = Done (firstn 255 (rendered_of c)).
Proof.
  intros Hname Hmax Hfuel.
  destruct (ZB_printf_ring tg initial_state [] c fuel ring_holds_initial Hname Hmax Hfuel)
    as (ts1 & ts2 & st' & E & Hcall & _ & _ & Hs & _).
  symmetry in E. apply app_eq_nil in E. destruct E as [_ ->].
  exists st'. split; [exact Hcall|]. exact Hs.
Qed.

(** [C2] Calls in which the bytes written are not the token, for any bytes
    [behind] the array [separator].
    - Exact fill.  After 27 calls [ZB_printf("src/main.c", 10)] (in frames
      without a separator character before the first zero byte behind
      [separator]) 243 bytes are stored.  The token of
      [ZB_printf("src/logger.c", 1234)] is 13 bytes long, exactly the free
      space, so nothing is evicted, and the closing [snprintf], which keeps
      a byte for its terminator, writes [logger.c1234] and a zero byte: the
      separator is missing and the scan of the buffer does not see the new
      token.
    - Sign.  For [ZB_printf("x.c", -1)] on the all-zero buffer the computed
      length is 6 (a sign and one digit), but ["%u"] prints the line as
      [4294967295].
    - Separator.  For [ZB_printf("src/main.c", 10)] on the all-zero buffer
      the computed length is 9, and the string written is [main.c10-]
      followed by the bytes behind [separator] up to the first zero byte:
      more than the token whenever the byte right behind the array is not
      zero. *)
Theorem token_write_differs_from_token (tg : target) (calls : list HardFault.call)
  (behind : list ascii) :
  length calls = 27%nat ->
  Forall (fun c => HardFault.call_file c = str "src/main.c"
                   /\ HardFault.call_line c = 10
                   /\ quiet_call c) calls ->
  (exists st27 st28,
      HardFault.run 256 tg initial_state calls = Done st27
      /\ HardFault.length_of_stored_log (logger_buffer st27) = Done 243
      /\ HardFault.new_log_length (str "src/logger.c") 1234 = 13
      /\ HardFault.token (str "src/logger.c") 1234 = str "logger.c1234-"
      /\ HardFault.ZB_printf 256 tg st27 (str "src/logger.c") 1234 behind = Done st28
      /\ c_str (logger_buffer st28)
         = Done (concat (repeat (str "main.c10-") 27) ++ str "logger.c1234")
      /\ HardFault.scan (logger_buffer st28) = Done (repeat (str "main.c10-") 27))
  /\ (exists st',
         HardFault.ZB_printf 256 tg initial_state (str "x.c") (-1) behind = Done st'
         /\ HardFault.new_log_length (str "x.c") (-1) = 6
         /\ c_str (logger_buffer st')
            = Done (firstn 255 (str "x.c4294967295-" ++ until_NUL behind)))
  /\ (exists st',
         HardFault.ZB_printf 256 tg initial_state (str "src/main.c") 10 behind = Done st'
         /\ HardFault.new_log_length (str "src/main.c") 10 = 9
         /\ c_str (logger_buffer st')
            = Done (firstn 255 (str "main.c10-" ++ until_NUL behind))).
Proof.
  intros Hcount Hcalls.
  assert (Hsame : Forall (fun c => token_of c = str "main.c10-"
                                   /\ token_length c = 9
                                   /\ plain_call c /\ quiet_call c) calls).
  { eapply Forall_impl; [|exact Hcalls].
    intros [file line bh]. cbn [HardFault.call_file HardFault.call_line].
    intros (-> & -> & Hq). split; [vm_compute; reflexivity|].
    split; [vm_compute; reflexivity|]. split; [|exact Hq].
    exact (main_c_10_plain bh). }
  assert (Hplain : Forall plain_call calls)
    by (eapply Forall_impl; [|exact Hsame]; cbn; tauto).
  assert (Hquiet : Forall quiet_call calls)
    by (eapply Forall_impl; [|exact Hsame]; cbn; tauto).
  assert (Hlen9 : Forall (fun x => token_length x = token_length (main_c_10 [])) calls)
    by (eapply Forall_impl; [|exact Hsame]; cbn; tauto).
  assert (Htoks : map token_of calls = repeat (str "main.c10-") 27).
  { rewrite <- Hcount. apply map_constant.
    eapply Forall_impl; [|exact Hsame]; cbn; tauto. }
  split; [|split].
  - destruct (run_ring tg 256 (Nat.le_refl _) calls [] [] initial_state
                newest_that_fit_nil ring_holds_initial Hplain Hquiet)
      as (st27 & kept & Hrun & Hnew & Hring).
    { eapply Forall_impl; [|exact Hlen9]. cbn. intros c ->. vm_compute. discriminate. }
    { intros r Hr. cbn [app] in Hr.
      rewrite (total_length_repeat _ r (contiguous_Forall _ r _ Hr Hlen9)).
      change (token_length (main_c_10 [])) with 9. lia. }
    cbn [app] in Hnew.
    assert (kept = calls) as ->.
    { apply (newest_that_fit_all kept calls Hnew).
      rewrite (total_length_repeat _ calls Hlen9), Hcount.
      change (token_length (main_c_10 [])) with 9. lia. }
    rewrite Htoks in Hring.
    set (ts := repeat (str "main.c10-") 27) in *.
    set (c := {| HardFault.call_file := str "src/logger.c";
                 HardFault.call_line := 1234;
                 HardFault.call_behind := behind |}).
    assert (Hpc : plain_call c).
    { split; [|cbn; lia].
      vm_compute. repeat (constructor; [split; discriminate|]). constructor. }
    destruct (ZB_printf_ring tg st27 ts c 256 Hring (plain_name_no_NUL c Hpc))
      as (ts1 & ts2 & st28 & E & Hcall & _ & Hb & Hs & _ & Hnone & _).
    { vm_compute. discriminate. }
    { apply Nat.le_refl. }
    rewrite (Hnone ltac:(vm_compute; discriminate)) in E. cbn [app] in E. subst ts2.
    destruct (ring_holds_exact_fill _ ts c Hb (proj1 (proj2 Hring)) Hpc Hs)
      as [Hstr Hring28]; [vm_compute; reflexivity|].
    exists st27, st28. split; [exact Hrun|]. split.
    { destruct Hring as (_ & Hwf & stray & Hs27 & Hstray).
      rewrite (length_of_stored_log_spec _ _ Hs27), (stored_len_ring ts stray Hwf Hstray).
      reflexivity. }
    split; [vm_compute; reflexivity|]. split; [vm_compute; reflexivity|].
    split; [exact Hcall|]. split; [|exact (scan_ring _ _ Hring28)].
    rewrite Hstr. reflexivity.
  - destruct (first_call_string tg 256
                {| HardFault.call_file := str "x.c"; HardFault.call_line := -1;
                   HardFault.call_behind := behind |})
      as (st' & Hcall & Hs).
    { vm_compute. repeat (constructor; [discriminate|]). constructor. }
    { vm_compute. discriminate. }
    { apply Nat.le_refl. }
    exists st'. split; [exact Hcall|]. split; [vm_compute; reflexivity|].
    rewrite Hs. unfold rendered_of. cbn [HardFault.call_file HardFault.call_line HardFault.call_behind].
    rewrite rendered_token. reflexivity.
  - destruct (first_call_string tg 256 (main_c_10 behind)) as (st' & Hcall & Hs).
    { apply plain_name_no_NUL. apply main_c_10_plain. }
    { vm_compute. discriminate. }
    { apply Nat.le_refl. }
    exists st'. split; [exact Hcall|]. split; [vm_compute; reflexivity|].
    rewrite Hs. unfold rendered_of. cbn [main_c_10 HardFault.call_file HardFault.call_line HardFault.call_behind].
    rewrite rendered_token. reflexivity.
Qed.

Lemma token_write_differs_from_token_witness :
  (exists st27 st28,
      HardFault.run 256 ILP32 initial_state (repeat (main_c_10 stray_bytes) 27) = Done st27
      /\ HardFault.length_of_stored_log (logger_buffer st27) = Done 243
      /\ HardFault.new_log_length (str "src/logger.c") 1234 = 13
      /\ HardFault.token (str "src/logger.c") 1234 = str "logger.c1234-"
      /\ HardFault.ZB_printf 256 ILP32 st27 (str "src/logger.c") 1234 stray_bytes
         = Done st28
      /\ c_str (logger_buffer st28)
         = Done (concat (repeat (str "main.c10-") 27) ++ str "logger.c1234")
      /\ HardFault.scan (logger_buffer st28) = Done (repeat (str "main.c10-") 27))
  /\ (exists st',
         HardFault.ZB_printf 256 ILP32 initial_state (str "x.c") (-1) stray_bytes = Done st'
         /\ HardFault.new_log_length (str "x.c") (-1) = 6
         /\ c_str (logger_buffer st')
            = Done (firstn 255 (str "x.c4294967295-" ++ until_NUL stray_bytes)))
  /\ (exists st',
         HardFault.ZB_printf 256 ILP32 initial_state (str "src/main.c") 10 stray_bytes
         = Done st'
         /\ HardFault.new_log_length (str "src/main.c") 10 = 9
         /\ c_str (logger_buffer st')
            = Done (firstn 255 (str "main.c10-" ++ until_NUL stray_bytes))).
Proof.
  apply (token_write_differs_from_token ILP32 (repeat (main_c_10 stray_bytes) 27)
           stray_bytes).
  - reflexivity.
  - apply Forall_forall. intros c Hc. apply repeat_spec in Hc. subst c.
    split; [reflexivity|]. split; [reflexivity|]. exact stray_bytes_quiet.
Defined.

(** * Further properties of the code *)

(** ** [GetFileNameFromPath] *)

Lemma In_skipn_le {A : Type} (x : A) (l : list A) (n m : nat) :
  (n <= m)%nat -> In x (skipn m l) -> In x (skipn n l).
Proof.
  intros Hle H. replace m with ((m - n) + n)%nat in H by lia.
  rewrite <- skipn_skipn in H.
  rewrite <- (firstn_skipn (m - n) (skipn n l)). apply in_or_app. right. exact H.
Qed.

Lemma rindex_of_split (c : ascii) (s : list ascii) (i : nat) :
  rindex_of c s = Some i ->
  exists a b, s = a ++ c :: b /\ length a = i /\ ~ In c b.
Proof.
  revert i. induction s as [|x s IH]; simpl; intros i H; [discriminate|].
  destruct (rindex_of c s) as [j|] eqn:E.
  - inversion H; subst. destruct (IH j eq_refl) as (a & b & Es & Ha & Hb).
    exists (x :: a), b. subst s. simpl. auto.
  - destruct (Ascii.eqb_spec x c) as [Ex|Ex]; [|discriminate].
    inversion H; subst. exists [], s. simpl.
    repeat split. apply rindex_of_None. exact E.
Qed.

Lemma skipn_past (a b : list ascii) (c : ascii) :
  skipn (S (length a)) (a ++ c :: b) = b.
Proof.
  replace (S (length a)) with (length (a ++ [c])) by (rewrite length_app; simpl; lia).
  replace (a ++ c :: b) with ((a ++ [c]) ++ b) by (rewrite <- app_assoc; reflexivity).
  rewrite skipn_app, skipn_all, Nat.sub_diag. reflexivity.
Qed.

(** Nothing after the last occurrence of [c], or after any later place,
    is a [c]. *)
Lemma no_occurrence_after_last (c : ascii) (s : list ascii) (k : nat) :
  match rindex_of c s with
  | Some i => (i <= k)%nat
  | None => True
  end ->
  ~ In c (skipn (S k) s).
Proof.
  destruct (rindex_of c s) as [i|] eqn:E; intros Hk Hin.
  - destruct (rindex_of_split c s i E) as (a & b & Es & Ha & Hb).
    apply Hb. apply (In_skipn_le c s (S i) (S k)) in Hin; [|lia].
    subst s i. rewrite skipn_past in Hin. exact Hin.
  - apply rindex_of_None in E. apply E.
    apply (In_skipn_le c s 0 (S k)) in Hin; [exact Hin | lia].
Qed.

Lemma basename_of_plain_name (name : list ascii) :
  ~ In "/"%char name -> ~ In "\"%char name -> GetFileNameFromPath name = name.
Proof.
  intros H1 H2. unfold GetFileNameFromPath.
  apply rindex_of_None in H1. apply rindex_of_None in H2.
  rewrite H1, H2. reflexivity.
Qed.

Lemma basename_has_no_separator (path : list ascii) :
  ~ In "/"%char (GetFileNameFromPath path)
  /\ ~ In "\"%char (GetFileNameFromPath path).
Proof.
  unfold GetFileNameFromPath.
  destruct (rindex_of "/"%char path) as [i|] eqn:Ei;
    destruct (rindex_of "\"%char path) as [j|] eqn:Ej; cbn [later_of].
  - destruct (Nat.ltb_spec j i).
    + split; apply no_occurrence_after_last; [rewrite Ei | rewrite Ej]; lia.
    + split; apply no_occurrence_after_last; [rewrite Ei | rewrite Ej]; lia.
  - split; [apply no_occurrence_after_last; rewrite Ei; lia|].
    intros H. apply rindex_of_None in Ej. apply Ej.
    apply (In_skipn_le _ path 0 (S i)) in H; [exact H | lia].
  - split; [|apply no_occurrence_after_last; rewrite Ej; lia].
    intros H. apply rindex_of_None in Ei. apply Ei.
    apply (In_skipn_le _ path 0 (S j)) in H; [exact H | lia].
  - split; apply rindex_of_None; assumption.
Qed.

(** [X1] The name returned for a path is what follows the last ['/'] or
    ['\'] of the path: it contains neither character, and the path is either
    the name itself (no separator in it) or a prefix, one of the two
    separators, and the name. *)
Theorem GetFileNameFromPath_after_last_separator (path : list ascii) :
  let name := GetFileNameFromPath path in
  ~ In "/"%char name
  /\ ~ In "\"%char name
  /\ ((name = path /\ ~ In "/"%char path /\ ~ In "\"%char path)
      \/ exists dir sep,
           (sep = "/"%char \/ sep = "\"%char) /\ path = dir ++ sep :: name).
Proof.
  intros name. destruct (basename_has_no_separator path) as [H1 H2].
  split; [exact H1|]. split; [exact H2|].
  subst name. unfold GetFileNameFromPath in *.
  destruct (rindex_of "/"%char path) as [i|] eqn:Ei;
    destruct (rindex_of "\"%char path) as [j|] eqn:Ej; cbn [later_of] in *.
  - right. destruct (Nat.ltb_spec j i).
    + destruct (rindex_of_split _ _ _ Ei) as (a & b & Es & Ha & _).
      exists a, "/"%char. split; [auto|].
      rewrite Es at 1. rewrite Es, <- Ha, skipn_past. reflexivity.
    + destruct (rindex_of_split _ _ _ Ej) as (a & b & Es & Ha & _).
      exists a, "\"%char. split; [auto|].
      rewrite Es at 1. rewrite Es, <- Ha, skipn_past. reflexivity.
  - right. destruct (rindex_of_split _ _ _ Ei) as (a & b & Es & Ha & _).
    exists a, "/"%char. split; [auto|].
    rewrite Es at 1. rewrite Es, <- Ha, skipn_past. reflexivity.
  - right. destruct (rindex_of_split _ _ _ Ej) as (a & b & Es & Ha & _).
    exists a, "\"%char. split; [auto|].
    rewrite Es at 1. rewrite Es, <- Ha, skipn_past. reflexivity.
  - left. split; [reflexivity|]. split; assumption.
Qed.

(** [X2] Taking the name of a name changes nothing: a path without ['/']
    and ['\'] is returned whole, and so is every name the function has
    returned. *)
Theorem GetFileNameFromPath_idempotent (path : list ascii) :
  GetFileNameFromPath (GetFileNameFromPath path) = GetFileNameFromPath path
  /\ (~ In "/"%char path -> ~ In "\"%char path -> GetFileNameFromPath path = path).
Proof.
  split.
  - destruct (basename_has_no_separator path) as [H1 H2].
    apply basename_of_plain_name; assumption.
  - apply basename_of_plain_name.
Qed.

Lemma GetFileNameFromPath_idempotent_witness :
  GetFileNameFromPath (str "main.c") = str "main.c".
Proof.
  apply (proj2 (GetFileNameFromPath_idempotent (str "main.c"))).
  - vm_compute. intuition discriminate.
  - vm_compute. intuition discriminate.
Defined.

(** ** The application name, again *)

Lemma SetAppName_keeps_size (st : logger_state) (appName : list ascii) :
  len (app_name st) = APP_NAME_SIZE ->
  len (app_name (SetAppName st appName)) = APP_NAME_SIZE.
Proof.
  intros H. rewrite (SetAppName_array st appName H).
  unfold len, APP_NAME_SIZE. rewrite length_app, repeat_length, length_firstn. lia.
Qed.

(** [X3] Setting a name after another leaves no trace of the first one:
    the 50 bytes are those a single [SetAppName] of the second name gives,
    and when the second name has at most 49 characters [GetAppName] points
    to exactly that name. *)
Theorem SetAppName_last_write_wins (st : logger_state) (first second : list ascii) :
  len (app_name st) = APP_NAME_SIZE ->
  app_name (SetAppName (SetAppName st first) second) = app_name (SetAppName st second)
  /\ (Forall (fun c => c <> NUL) second -> len second <= 49 ->
      c_str (GetAppName (SetAppName (SetAppName st first) second)) = Done second).
Proof.
  intros Hlen.
  pose proof (SetAppName_keeps_size st first Hlen) as Hlen1.
  split.
  - rewrite (SetAppName_array _ second Hlen1), (SetAppName_array _ second Hlen).
    reflexivity.
  - intros Hnz Hshort. unfold GetAppName.
    rewrite (SetAppName_array _ second Hlen1).
    rewrite firstn_all2 by (unfold len in Hshort; lia).
    replace (50 - length second)%nat with (S (49 - length second))
      by (unfold len in Hshort; lia).
    cbn [repeat]. apply c_str_app_NUL. exact Hnz.
Qed.

Lemma SetAppName_last_write_wins_witness :
  app_name (SetAppName (SetAppName initial_state (repeat "a"%char 60)) (str "Pump"))
  = app_name (SetAppName initial_state (str "Pump"))
  /\ c_str (GetAppName (SetAppName (SetAppName initial_state (repeat "a"%char 60))
                          (str "Pump")))
     = Done (str "Pump").
Proof.
  destruct (SetAppName_last_write_wins initial_state (repeat "a"%char 60) (str "Pump"))
    as [H1 H2]; [reflexivity|].
  split; [exact H1|]. apply H2.
  - repeat constructor; discriminate.
  - vm_compute. discriminate.
Defined.

(** ** The formatting logger, again *)

Lemma snprintf_Done_len (m : list ascii) (off size : Z) (s m' : list ascii) (n : Z) :
  snprintf m off size s = Done (m', n) -> len m' = len m /\ n = len s.
Proof.
  unfold snprintf.
  destruct ((off <? 0) || (len m <? off)) eqn:E; [discriminate|].
  apply orb_false_elim in E. destruct E as [E1 E2].
  apply Z.ltb_ge in E1. apply Z.ltb_ge in E2.
  destruct (size =? 0).
  - intros H. inversion H; subst. auto.
  - destruct (Z.leb_spec (off + len (truncate (size - 1) s ++ [NUL])) (len m)) as [Hle|Hgt];
      [|discriminate].
    intros H. inversion H; subst. split; [|reflexivity].
    apply len_mem_write; assumption.
Qed.

Lemma render_message_Done_len (tg : target) (buf : list ascii) (length size : Z)
  (msg buf' : list ascii) (n : Z) :
  Logger.render_message tg buf length size msg = Done (buf', n) -> len buf' = len buf.
Proof.
  unfold Logger.render_message. destruct (size >? 0).
  - destruct (snprintf buf length size msg) as [[b w]| |] eqn:E; try discriminate.
    cbn [bind]. destruct (snprintf_Done_len _ _ _ _ _ _ E) as [Hl _].
    destruct (w >? 0); [destruct (size_t_of_int tg w >? size)|];
      intros H; inversion H; subst; exact Hl.
  - intros H. inversion H; subst. reflexivity.
Qed.

Lemma format_record_Done_len (tg : target) (st : logger_state) (lvl : Z)
  (file function : list ascii) (line : Z) (msg buf : list ascii) (n : Z) :
  len (logger_buffer st) = LOGGER_BUFFER_MAX_LENGTH ->
  Logger.format_record tg st lvl file function line msg = Done (buf, n) ->
  len buf = LOGGER_BUFFER_MAX_LENGTH.
Proof.
  intros Hb. unfold Logger.format_record. rewrite (memset_all _ Hb).
  destruct (Logger.logger_array_at lvl) as [d| |]; try discriminate. cbn [bind].
  destruct (Logger.preamble st d file function line) as [pre| |]; try discriminate.
  cbn [bind].
  destruct (snprintf (zero_fill LOGGER_BUFFER_MAX_LENGTH) 0 LOGGER_BUFFER_MAX_LENGTH pre)
    as [[b1 l1]| |] eqn:E1; try discriminate. cbn [bind].
  destruct (Logger.render_message tg b1 l1 _ msg) as [[b2 l2]| |] eqn:E2; try discriminate.
  cbn [bind].
  destruct (snprintf b2 l2 _ Logger.RESET_NEWLINE) as [[b3 l3]| |] eqn:E3; try discriminate.
  cbn [bind]. intros H. inversion H; subst.
  destruct (snprintf_Done_len _ _ _ _ _ _ E3) as [H3 _].
  pose proof (render_message_Done_len _ _ _ _ _ _ _ E2) as H2.
  destruct (snprintf_Done_len _ _ _ _ _ _ E1) as [H1 _].
  rewrite H3, H2, H1. reflexivity.
Qed.

(** [X4] What a call of the formatting [ZB_printf] that returns can have
    done: the threshold, the application name and the two registered
    functions are as before, the buffer is still 256 bytes long, and the
    sink was called either not at all or exactly once, through the
    registered pointer, with a length below 256 and the bytes at the start
    of the buffer. *)
Theorem Logger_ZB_printf_frame (tg : target) (st st' : logger_state) (lvl : Z)
  (file function : list ascii) (line : Z) (msg : list ascii) :
  len (logger_buffer st) = LOGGER_BUFFER_MAX_LENGTH ->
  Logger.ZB_printf tg st lvl file function line msg = Done st' ->
  currentLogLevel st' = currentLogLevel st
  /\ app_name st' = app_name st
  /\ pfGetMilliseconds st' = pfGetMilliseconds st
  /\ pfLoggerPrintf st' = pfLoggerPrintf st
  /\ len (logger_buffer st') = LOGGER_BUFFER_MAX_LENGTH
  /\ (sink_calls st' = sink_calls st
      \/ exists c,
           sink_calls st' = sink_calls st ++ [c]
           /\ pfLoggerPrintf st = Some (sc_fn c)
           /\ 0 <= sc_len c < 256
           /\ sc_bytes c = firstn (Z.to_nat (sc_len c)) (logger_buffer st')).
Proof.
  intros Hb H. unfold Logger.ZB_printf in H.
  destruct (lvl >=? level_to_int (GetCurrentLogLevel st)).
  - destruct (Logger.format_record tg st lvl file function line msg)
      as [[buf n]| |] eqn:E; try discriminate.
    cbn [bind] in H. inversion H; subst. clear H.
    pose proof (format_record_Done_len tg st lvl file function line msg buf n Hb E) as Hlen.
    unfold LoggerPrintf. cbn [set_buffer pfLoggerPrintf].
    destruct (pfLoggerPrintf st) as [f|] eqn:Ef;
      cbn [currentLogLevel app_name pfGetMilliseconds pfLoggerPrintf logger_buffer
           sink_calls set_buffer].
    + repeat (split; [try reflexivity; try assumption|]). right.
      eexists. split; [reflexivity|]. cbn [sc_fn sc_len sc_bytes].
      split; [reflexivity|]. split; [|reflexivity].
      unfold to_uint8. apply Z.mod_pos_bound. lia.
    + repeat (split; [try reflexivity; try assumption|]). left. reflexivity.
  - inversion H; subst. repeat (split; [try reflexivity; try assumption|]).
    left. reflexivity.
Qed.

Lemma Logger_ZB_printf_frame_witness :
  exists st',
    Logger.ZB_printf ILP32 sink_only (level_to_int ERR)
      (str "src/main.c") (str "main") 42 (str "code=7") = Done st'
    /\ currentLogLevel st' = WARN
    /\ len (logger_buffer st') = LOGGER_BUFFER_MAX_LENGTH.
Proof.
  eexists.
  assert (H : Logger.ZB_printf ILP32 sink_only (level_to_int ERR)
                (str "src/main.c") (str "main") 42 (str "code=7") = Done _)
    by (vm_compute; reflexivity).
  split; [exact H|].
  destruct (Logger_ZB_printf_frame ILP32 sink_only _ _ _ _ _ _ eq_refl H)
    as (H1 & _ & _ & _ & H5 & _).
  split; [exact H1 | exact H5].
Defined.

(** [X5] A record is formatted from a cleared buffer: whatever 256 bytes
    the buffer held before, a call that passes the threshold gives the same
    outcome, the same new buffer and the same bytes to the sink. *)
Theorem Logger_ZB_printf_ignores_old_buffer (tg : target) (st : logger_state)
  (b1 b2 : list ascii) (lvl : Z) (file function : list ascii) (line : Z)
  (msg : list ascii) :
  len b1 = LOGGER_BUFFER_MAX_LENGTH -> len b2 = LOGGER_BUFFER_MAX_LENGTH ->
  level_to_int (GetCurrentLogLevel st) <= lvl ->
  Logger.ZB_printf tg (set_buffer st b1) lvl file function line msg
  = Logger.ZB_printf tg (set_buffer st b2) lvl file function line msg.
Proof.
  intros H1 H2 Hlvl. unfold Logger.ZB_printf, Logger.format_record.
  cbn [set_buffer logger_buffer GetCurrentLogLevel currentLogLevel].
  rewrite (memset_all b1 H1), (memset_all b2 H2).
  unfold GetCurrentLogLevel in Hlvl.
  destruct (Z.geb_spec lvl (level_to_int (currentLogLevel st))); [reflexivity | lia].
Qed.

Lemma Logger_ZB_printf_ignores_old_buffer_witness :
  Logger.ZB_printf ILP32 (set_buffer sink_only (repeat "x"%char 256)) 2
    (str "src/main.c") (str "main") 42 (str "code=7")
  = Logger.ZB_printf ILP32 (set_buffer sink_only (zero_fill 256)) 2
      (str "src/main.c") (str "main") 42 (str "code=7").
Proof.
  apply (Logger_ZB_printf_ignores_old_buffer ILP32 sink_only).
  - reflexivity.
  - reflexivity.
  - vm_compute. discriminate.
Defined.

(** [X6] The level is used as an index of [logger_array] without a check:
    a level above [FATAL] passes every threshold and reads past the five
    entries of the array. *)
Theorem level_above_FATAL_reads_past_logger_array (tg : target) (st : logger_state)
  (lvl : Z) (file function : list ascii) (line : Z) (msg : list ascii) :
  level_to_int FATAL < lvl ->
  Logger.ZB_printf tg st lvl file function line msg = Fault.
Proof.
  intros H. cbn [level_to_int] in H. unfold Logger.ZB_printf.
  assert (Ht : level_to_int (GetCurrentLogLevel st) <= 4)
    by (destruct (GetCurrentLogLevel st); simpl; lia).
  destruct (Z.geb_spec lvl (level_to_int (GetCurrentLogLevel st))); [|lia].
  unfold Logger.format_record, Logger.logger_array_at.
  destruct (Z.ltb_spec lvl 0); [lia|].
  assert (Hn : nth_error Logger.logger_array (Z.to_nat lvl) = None).
  { apply nth_error_None. change (length Logger.logger_array) with 5%nat. lia. }
  rewrite Hn. reflexivity.
Qed.

Lemma level_above_FATAL_reads_past_logger_array_witness :
  Logger.ZB_printf ILP32 sink_only 5 (str "src/main.c") (str "main") 42 (str "x") = Fault.
Proof.
  apply level_above_FATAL_reads_past_logger_array. vm_compute. reflexivity.
Defined.

(** Writing a text and its terminator over the zeros that follow [a]. *)
Lemma mem_write_zero_tail (a d : list ascii) (k : Z) :
  len d + 1 <= k ->
  mem_write (a ++ zero_fill k) (Z.to_nat (len a)) (d ++ [NUL])
  = (a ++ d) ++ zero_fill (k - len d).
Proof.
  intros Hk. pose proof (len_nonneg d) as Hd.
  replace (Z.to_nat (len a)) with (length a) by (unfold len; lia).
  unfold mem_write.
  rewrite firstn_app, firstn_all, Nat.sub_diag, firstn_O, app_nil_r.
  rewrite skipn_app, (skipn_all2 a) by lia. cbn [app].
  replace k with ((len d + 1) + (k - len d - 1)) at 1 by lia.
  rewrite <- zero_fill_app by lia.
  replace (length a + length (d ++ [NUL]) - length a)%nat
    with (length (zero_fill (len d + 1)))
    by (rewrite length_zero_fill, length_app; unfold len; simpl; lia).
  rewrite skipn_app, skipn_all, Nat.sub_diag. cbn [skipn app].
  rewrite (zero_fill_succ (k - len d)) by lia.
  rewrite <- !app_assoc. cbn [app].
  replace (k - len d - 1) with (k - len d - 1) by lia. reflexivity.
Qed.

Lemma RESET_NEWLINE_no_NUL (n : nat) :
  Forall (fun c => c <> NUL) (firstn n Logger.RESET_NEWLINE).
Proof.
  assert (H : Forall (fun c => c <> NUL) Logger.RESET_NEWLINE)
    by (repeat constructor; discriminate).
  rewrite <- (firstn_skipn n Logger.RESET_NEWLINE) in H.
  apply Forall_app in H. tauto.
Qed.

(** The buffer and the tracked length when preamble and message fit with
    room to spare. *)
Lemma format_record_whole (tg : target) (st : logger_state) (l : logger_levels_t)
  (file function : list ascii) (line : Z) (msg pre : list ascii) :
  len (logger_buffer st) = LOGGER_BUFFER_MAX_LENGTH ->
  Logger.preamble st (Logger.desc_of l) file function line = Done pre ->
  len pre + len msg < LOGGER_BUFFER_MAX_LENGTH - sizeof_ptr tg ->
  let L := len pre + len msg in
  let tr := firstn (Z.to_nat (255 - L)) Logger.RESET_NEWLINE in
  Logger.format_record tg st (level_to_int l) file function line msg
  = Done ((pre ++ msg ++ tr) ++ zero_fill (256 - L - len tr), L).
Proof.
  intros Hbuf Hpre Hfit L tr. unfold LOGGER_BUFFER_MAX_LENGTH in *.
  pose proof (sizeof_ptr_range tg) as Hsp.
  pose proof (len_nonneg pre) as HP. pose proof (len_nonneg msg) as HM.
  assert (Htr : len tr <= 255 - L).
  { subst tr. unfold len at 1. rewrite length_firstn. lia. }
  pose proof (len_nonneg tr) as Htr0.
  unfold Logger.format_record.
  rewrite memset_all by exact Hbuf.
  rewrite logger_array_at_level. cbn [bind]. rewrite Hpre. cbn [bind].
  unfold LOGGER_BUFFER_MAX_LENGTH, Logger.sizeof_RESET_NEWLINE.
  rewrite snprintf_inside by (rewrite ?len_zero_fill; lia). cbn [bind].
  rewrite firstn_all2 by (unfold len in *; lia).
  change (zero_fill 256) with ([] ++ zero_fill 256).
  change (Z.to_nat 0) with (Z.to_nat (len [])).
  rewrite mem_write_zero_tail by lia. cbn [app].
  rewrite size_t_of_int_nonneg by assumption.
  rewrite to_size_t_small by lia.
  unfold Logger.render_message.
  destruct (Z.gtb_spec (256 - sizeof_ptr tg - len pre) 0) as [_|Hz]; [|lia].
  rewrite snprintf_inside by (rewrite ?len_app, ?len_zero_fill; lia). cbn [bind].
  rewrite firstn_all2 by (unfold len in *; lia).
  rewrite mem_write_zero_tail by lia.
  rewrite size_t_of_int_nonneg by assumption.
  assert (Hlen : (if len msg >? 0
                  then if len msg >? 256 - sizeof_ptr tg - len pre
                       then Done ((pre ++ msg) ++ zero_fill (256 - len pre - len msg),
                                  len pre + (256 - sizeof_ptr tg - len pre))
                       else Done ((pre ++ msg) ++ zero_fill (256 - len pre - len msg),
                                  len pre + len msg)
                  else Done ((pre ++ msg) ++ zero_fill (256 - len pre - len msg), len pre))
                 = Done ((pre ++ msg) ++ zero_fill (256 - len pre - len msg), L)).
  { destruct (Z.gtb_spec (len msg) 0).
    - destruct (Z.gtb_spec (len msg) (256 - sizeof_ptr tg - len pre)); [lia | reflexivity].
    - subst L. replace (len msg) with 0 by lia. rewrite Z.add_0_r. reflexivity. }
  rewrite Hlen. cbn [bind].
  rewrite size_t_of_int_nonneg by (subst L; lia).
  rewrite to_size_t_small by (subst L; lia).
  rewrite snprintf_inside by (rewrite ?len_app, ?len_zero_fill; subst L; lia). cbn [bind].
  replace (256 - L - 1) with (255 - L) by lia. fold tr.
  replace L with (len (pre ++ msg)) at 1 by (rewrite len_app; reflexivity).
  rewrite mem_write_zero_tail by (subst L; lia).
  rewrite <- !app_assoc.
  replace (256 - len pre - len msg - len tr) with (256 - L - len tr) by (subst L; lia).
  reflexivity.
Qed.

(** [X7] A record that fits.  When the preamble and the message together
    leave room ([len pre + len msg < 256 - sizeof_ptr]) and hold no zero
    byte, the buffer reads, as a string, preamble, message and the first
    [255 - length] characters of the trailer (all six of them up to a
    length of 249), and a registered sink is called once with
    [length + sizeof_ptr] as its length. *)
Theorem Logger_record_that_fits (tg : target) (st : logger_state)
  (l : logger_levels_t) (file function : list ascii) (line : Z)
  (msg pre : list ascii) :
  len (logger_buffer st) = LOGGER_BUFFER_MAX_LENGTH ->
  level_to_int (GetCurrentLogLevel st) <= level_to_int l ->
  Logger.preamble st (Logger.desc_of l) file function line = Done pre ->
  Forall (fun c => c <> NUL) pre -> Forall (fun c => c <> NUL) msg ->
  len pre + len msg < LOGGER_BUFFER_MAX_LENGTH - sizeof_ptr tg ->
  let L := len pre + len msg in
  exists st',
    Logger.ZB_printf tg st (level_to_int l) file function line msg = Done st'
    /\ c_str (logger_buffer st')
       = Done (pre ++ msg ++ firstn (Z.to_nat (255 - L)) Logger.RESET_NEWLINE)
    /\ (L <= 249 -> c_str (logger_buffer st') = Done (pre ++ msg ++ Logger.RESET_NEWLINE))
    /\ forall f, pfLoggerPrintf st = Some f ->
         exists c, sink_calls st' = sink_calls st ++ [c]
                   /\ sc_len c = L + sizeof_ptr tg.
Proof.
  intros Hbuf Hlvl Hpre Hnp Hnm Hfit L.
  pose proof (format_record_whole tg st l file function line msg pre Hbuf Hpre Hfit) as Hfmt.
  cbv zeta in Hfmt. fold L in Hfmt.
  set (tr := firstn (Z.to_nat (255 - L)) Logger.RESET_NEWLINE) in *.
  unfold LOGGER_BUFFER_MAX_LENGTH in *.
  pose proof (sizeof_ptr_range tg) as Hsp.
  pose proof (len_nonneg pre) as HP. pose proof (len_nonneg msg) as HM.
  assert (Htr : len tr <= 255 - L).
  { subst tr. unfold len at 1. rewrite length_firstn. lia. }
  rewrite (ZB_printf_delivers tg st l file function line msg _ _ Hlvl Hfmt).
  eexists. split; [reflexivity|].
  assert (Hstr : c_str ((pre ++ msg ++ tr) ++ zero_fill (256 - L - len tr))
                 = Done (pre ++ msg ++ tr)).
  { rewrite zero_fill_succ by lia. apply c_str_app_NUL.
    apply Forall_app. split; [exact Hnp|]. apply Forall_app. split; [exact Hnm|].
    apply RESET_NEWLINE_no_NUL. }
  assert (Hbuf' : forall n, logger_buffer
                    (LoggerPrintf (set_buffer st ((pre ++ msg ++ tr)
                                     ++ zero_fill (256 - L - len tr)))
                       ((pre ++ msg ++ tr) ++ zero_fill (256 - L - len tr)) n)
                  = (pre ++ msg ++ tr) ++ zero_fill (256 - L - len tr)).
  { intros n. unfold LoggerPrintf. destruct (pfLoggerPrintf _); reflexivity. }
  rewrite Hbuf'. split; [exact Hstr|]. split.
  - intros H249. rewrite Hstr. subst tr.
    rewrite firstn_all2 by (change (length Logger.RESET_NEWLINE) with 6%nat; lia).
    reflexivity.
  - intros f Hf. unfold LoggerPrintf. cbn [set_buffer pfLoggerPrintf]. rewrite Hf.
    eexists. cbn [sink_calls sc_len]. split; [reflexivity|].
    rewrite size_t_of_int_nonneg by lia. unfold to_uint8.
    apply Z.mod_small. lia.
Qed.

Lemma Logger_record_that_fits_witness :
  exists st',
    Logger.ZB_printf ILP32 sink_only (level_to_int WARN)
      (str "src/main.c") (str "main") 42 (str "code=7") = Done st'
    /\ c_str (logger_buffer st')
       = Done ((Logger.ESC :: str "[33;1mMyApp[-1.0] : WARN : main.c : main : 42 -> ")
               ++ str "code=7" ++ Logger.RESET_NEWLINE).
Proof.
  destruct (Logger_record_that_fits ILP32 sink_only WARN (str "src/main.c") (str "main") 42
              (str "code=7")
              (Logger.ESC :: str "[33;1mMyApp[-1.0] : WARN : main.c : main : 42 -> "))
    as (st' & H1 & _ & H3 & _).
  - reflexivity.
  - vm_compute. discriminate.
  - vm_compute. reflexivity.
  - repeat constructor; discriminate.
  - repeat constructor; discriminate.
  - vm_compute. reflexivity.
  - exists st'. split; [exact H1|]. apply H3. vm_compute. discriminate.
Defined.

(** The buffer and the tracked length when the message does not fit in the
    room the preamble leaves. *)
Lemma format_record_cut (tg : target) (st : logger_state) (l : logger_levels_t)
  (file function : list ascii) (line : Z) (msg pre : list ascii) :
  len (logger_buffer st) = LOGGER_BUFFER_MAX_LENGTH ->
  Logger.preamble st (Logger.desc_of l) file function line = Done pre ->
  let room := LOGGER_BUFFER_MAX_LENGTH - sizeof_ptr tg - len pre in
  0 < room <= len msg ->
  let cut := firstn (Z.to_nat (room - 1)) msg in
  let tr := firstn (Z.to_nat (sizeof_ptr tg - 1)) Logger.RESET_NEWLINE in
  Logger.format_record tg st (level_to_int l) file function line msg
  = Done (((pre ++ cut ++ [NUL]) ++ tr) ++ zero_fill (sizeof_ptr tg - len tr),
          LOGGER_BUFFER_MAX_LENGTH - sizeof_ptr tg).
Proof.
  intros Hbuf Hpre room Hroom cut tr. unfold LOGGER_BUFFER_MAX_LENGTH in *.
  pose proof (sizeof_ptr_range tg) as Hsp.
  pose proof (len_nonneg pre) as HP.
  assert (Hcut : len cut = room - 1).
  { subst cut. unfold len in *. rewrite length_firstn. lia. }
  assert (Htr : len tr <= sizeof_ptr tg - 1).
  { subst tr. unfold len at 1. rewrite length_firstn. lia. }
  pose proof (len_nonneg tr) as Htr0.
  unfold Logger.format_record.
  rewrite memset_all by exact Hbuf.
  rewrite logger_array_at_level. cbn [bind]. rewrite Hpre. cbn [bind].
  unfold LOGGER_BUFFER_MAX_LENGTH, Logger.sizeof_RESET_NEWLINE.
  rewrite snprintf_inside by (rewrite ?len_zero_fill; lia). cbn [bind].
  rewrite firstn_all2 by (unfold len in *; lia).
  change (zero_fill 256) with ([] ++ zero_fill 256).
  change (Z.to_nat 0) with (Z.to_nat (len [])).
  rewrite mem_write_zero_tail by lia. cbn [app].
  rewrite size_t_of_int_nonneg by assumption.
  rewrite to_size_t_small by lia. fold room.
  unfold Logger.render_message.
  destruct (Z.gtb_spec room 0) as [_|Hz]; [|lia].
  rewrite snprintf_inside by (rewrite ?len_app, ?len_zero_fill; lia). cbn [bind].
  fold cut. rewrite mem_write_zero_tail by lia.
  rewrite size_t_of_int_nonneg by lia.
  assert (Hlen : (if len msg >? 0
                  then if len msg >? room
                       then Done ((pre ++ cut) ++ zero_fill (256 - len pre - len cut),
                                  len pre + room)
                       else Done ((pre ++ cut) ++ zero_fill (256 - len pre - len cut),
                                  len pre + len msg)
                  else Done ((pre ++ cut) ++ zero_fill (256 - len pre - len cut), len pre))
                 = Done ((pre ++ cut ++ [NUL]) ++ zero_fill (sizeof_ptr tg),
                         256 - sizeof_ptr tg)).
  { replace (256 - len pre - len cut) with (sizeof_ptr tg + 1) by lia.
    rewrite (zero_fill_succ (sizeof_ptr tg + 1)) by lia.
    replace (sizeof_ptr tg + 1 - 1) with (sizeof_ptr tg) by lia.
    replace ((pre ++ cut) ++ NUL :: zero_fill (sizeof_ptr tg))
      with ((pre ++ cut ++ [NUL]) ++ zero_fill (sizeof_ptr tg))
      by (rewrite <- !app_assoc; reflexivity).
    destruct (Z.gtb_spec (len msg) 0); [|lia].
    destruct (Z.gtb_spec (len msg) room); f_equal; f_equal; lia. }
  rewrite Hlen. cbn [bind].
  rewrite size_t_of_int_nonneg by lia.
  rewrite to_size_t_small by lia.
  rewrite snprintf_inside
    by (rewrite ?len_app, ?len_zero_fill; change (len [NUL]) with 1; lia).
  cbn [bind].
  replace (256 - (256 - sizeof_ptr tg) - 1) with (sizeof_ptr tg - 1) by lia. fold tr.
  replace (256 - sizeof_ptr tg) with (len (pre ++ cut ++ [NUL])) at 1
    by (rewrite !len_app; change (len [NUL]) with 1; lia).
  rewrite mem_write_zero_tail by lia.
  reflexivity.
Qed.

(** [X8] A message too long for the room [256 - sizeof_ptr - len pre] the
    preamble leaves is cut to [room - 1] characters, and the terminator
    that [vsnprintf] puts behind them stays inside the tracked length: the
    buffer reads, as a string, preamble and cut message only, the trailer
    lies behind the terminator.  The tracked length is then
    [256 - sizeof_ptr], the length handed to the sink is
    [256 mod 256 = 0], and the sink receives no byte. *)
Theorem Logger_message_cut_to_room (tg : target) (st : logger_state)
  (l : logger_levels_t) (file function : list ascii) (line : Z)
  (msg pre : list ascii) :
  len (logger_buffer st) = LOGGER_BUFFER_MAX_LENGTH ->
  level_to_int (GetCurrentLogLevel st) <= level_to_int l ->
  Logger.preamble st (Logger.desc_of l) file function line = Done pre ->
  Forall (fun c => c <> NUL) pre -> Forall (fun c => c <> NUL) msg ->
  let room := LOGGER_BUFFER_MAX_LENGTH - sizeof_ptr tg - len pre in
  0 < room <= len msg ->
  exists st',
    Logger.ZB_printf tg st (level_to_int l) file function line msg = Done st'
    /\ c_str (logger_buffer st') = Done (pre ++ firstn (Z.to_nat (room - 1)) msg)
    /\ forall f, pfLoggerPrintf st = Some f ->
         exists c, sink_calls st' = sink_calls st ++ [c]
                   /\ sc_len c = 0 /\ sc_bytes c = [].
Proof.
  intros Hbuf Hlvl Hpre Hnp Hnm room Hroom.
  pose proof (format_record_cut tg st l file function line msg pre Hbuf Hpre Hroom) as Hfmt.
  cbv zeta in Hfmt. fold room in Hfmt.
  set (cut := firstn (Z.to_nat (room - 1)) msg) in *.
  set (tr := firstn (Z.to_nat (sizeof_ptr tg - 1)) Logger.RESET_NEWLINE) in *.
  set (buf := ((pre ++ cut ++ [NUL]) ++ tr) ++ zero_fill (sizeof_ptr tg - len tr)) in *.
  pose proof (sizeof_ptr_range tg) as Hsp.
  rewrite (ZB_printf_delivers tg st l file function line msg _ _ Hlvl Hfmt).
  eexists. split; [reflexivity|].
  assert (Hstr : c_str buf = Done (pre ++ cut)).
  { subst buf. rewrite <- !app_assoc. cbn [app]. rewrite app_assoc.
    apply c_str_app_NUL. apply Forall_app. split; [exact Hnp|].
    subst cut. rewrite <- (firstn_skipn (Z.to_nat (room - 1)) msg) in Hnm.
    apply Forall_app in Hnm. tauto. }
  assert (Harg : to_uint8 (size_t_of_int tg (LOGGER_BUFFER_MAX_LENGTH - sizeof_ptr tg)
                           + sizeof_ptr tg) = 0).
  { unfold LOGGER_BUFFER_MAX_LENGTH. rewrite size_t_of_int_nonneg by lia.
    replace (256 - sizeof_ptr tg + sizeof_ptr tg) with 256 by lia. reflexivity. }
  rewrite Harg. split.
  - unfold LoggerPrintf. destruct (pfLoggerPrintf _); exact Hstr.
  - intros f Hf. unfold LoggerPrintf. cbn [set_buffer pfLoggerPrintf]. rewrite Hf.
    eexists. cbn [sink_calls sc_len sc_bytes]. split; [reflexivity|].
    split; reflexivity.
Qed.

Lemma Logger_message_cut_to_room_witness :
  exists st' c,
    Logger.ZB_printf ILP32 sink_only (level_to_int WARN)
      (str "src/main.c") (str "main") 42 (repeat "m"%char 300) = Done st'
    /\ c_str (logger_buffer st')
       = Done ((Logger.ESC :: str "[33;1mMyApp[-1.0] : WARN : main.c : main : 42 -> ")
               ++ repeat "m"%char 201)
    /\ sink_calls st' = [c] /\ sc_len c = 0 /\ sc_bytes c = [].
Proof.
  destruct (Logger_message_cut_to_room ILP32 sink_only WARN (str "src/main.c") (str "main")
              42 (repeat "m"%char 300)
              (Logger.ESC :: str "[33;1mMyApp[-1.0] : WARN : main.c : main : 42 -> "))
    as (st' & H1 & H2 & H3).
  - reflexivity.
  - vm_compute. discriminate.
  - vm_compute. reflexivity.
  - repeat constructor; discriminate.
  - apply Forall_forall. intros c Hc. apply repeat_spec in Hc. subst c. discriminate.
  - vm_compute. split; [reflexivity | discriminate].
  - destruct (H3 1%nat eq_refl) as (c & Hc1 & Hc2 & Hc3).
    exists st', c. split; [exact H1|]. split; [exact H2|].
    split; [exact Hc1|]. split; [exact Hc2 | exact Hc3].
Defined.

(** [X9] The threshold set with [SetCurrentLogLevel] decides, in both
    directions, whether a record reaches the registered sink: below the
    threshold the call changes nothing, at or above it (the preamble
    fitting) the sink is called exactly once. *)
Theorem threshold_decides_delivery (tg : target) (st : logger_state)
  (t l : logger_levels_t) (f : LoggerPrintfFunction)
  (file function : list ascii) (line : Z) (msg pre : list ascii) :
  let st1 := SetCurrentLogLevel
               (LoggerRegisterAppFunctions st (pfGetMilliseconds st) (Some f)) t in
  len (logger_buffer st) = LOGGER_BUFFER_MAX_LENGTH ->
  Logger.preamble st1 (Logger.desc_of l) file function line = Done pre ->
  len pre <= LOGGER_BUFFER_MAX_LENGTH - sizeof_ptr tg ->
  exists st',
    Logger.ZB_printf tg st1 (level_to_int l) file function line msg = Done st'
    /\ (level_to_int l < level_to_int t -> st' = st1 /\ sink_calls st' = sink_calls st)
    /\ (level_to_int t <= level_to_int l ->
        exists c, sink_calls st' = sink_calls st ++ [c] /\ sc_fn c = f).
Proof.
  intros st1 Hbuf Hpre Hfit.
  destruct (Z.lt_ge_cases (level_to_int l) (level_to_int t)) as [Hlt|Hge].
  - exists st1. split; [apply level_filter_rejects; exact Hlt|].
    split; [intros _; split; reflexivity | lia].
  - destruct (format_record_prefix tg st1 l file function line msg pre Hbuf Hpre Hfit)
      as (buf & n & Hfmt & _).
    eexists. split; [exact (ZB_printf_delivers tg st1 l file function line msg buf n Hge Hfmt)|].
    split; [lia|]. intros _. eexists. split; reflexivity.
Qed.

Lemma threshold_decides_delivery_witness :
  exists st',
    Logger.ZB_printf ILP32
      (SetCurrentLogLevel (LoggerRegisterAppFunctions initial_state None (Some 7%nat)) DBG)
      (level_to_int INFO) (str "src/main.c") (str "main") 42 (str "up") = Done st'
    /\ exists c, sink_calls st' = [c] /\ sc_fn c = 7%nat.
Proof.
  destruct (threshold_decides_delivery ILP32 initial_state DBG INFO 7%nat
              (str "src/main.c") (str "main") 42 (str "up")
              (Logger.ESC :: str "[32;1mMyApp[-1.0] : INFO : main.c : main : 42 -> "))
    as (st' & H1 & _ & H3).
  - reflexivity.
  - vm_compute. reflexivity.
  - vm_compute. discriminate.
  - exists st'. split; [exact H1|]. apply H3. vm_compute. discriminate.
Defined.

(** ** The fault ring, again *)

Lemma append_Done_frame (tg : target) (st st' : logger_state) (b : list ascii)
  (stored : Z) (file : list ascii) (line : Z) (behind : list ascii) :
  HardFault.append tg st b stored file line behind = Done st' ->
  st' = set_buffer st (logger_buffer st').
Proof.
  unfold HardFault.append.
  destruct (snprintf b stored _ (HardFault.rendered file line behind)) as [[b' n]| |];
    try discriminate.
  cbn [bind]. intros H. inversion H; subst. reflexivity.
Qed.

(** [X10] What a call of the fault-ring [ZB_printf] that returns can have
    done: only [logger_buffer] differs from the state before; it is still a
    256-byte array that holds a terminated string, and the sink is never
    called. *)
Theorem HardFault_ZB_printf_frame (fuel : nat) (tg : target) (st st' : logger_state)
  (file : list ascii) (line : Z) (behind : list ascii) :
  holds_string (logger_buffer st) ->
  HardFault.ZB_printf fuel tg st file line behind = Done st' ->
  st' = set_buffer st (logger_buffer st')
  /\ holds_string (logger_buffer st')
  /\ sink_calls st' = sink_calls st.
Proof.
  intros Hst H.
  assert (Hframe : st' = set_buffer st (logger_buffer st')).
  { unfold HardFault.ZB_printf in H.
    destruct (HardFault.length_of_stored_log (logger_buffer st)) as [stored| |];
      try discriminate.
    cbn [bind] in H. destruct (stored =? 0).
    - exact (append_Done_frame _ _ _ _ _ _ _ _ H).
    - destruct (HardFault.stored_log_overflows tg stored).
      + inversion H; subst. reflexivity.
      + destruct (HardFault.no_room tg _ stored).
        * destruct (HardFault.evict fuel tg (logger_buffer st) _) as [[b s']| |];
            try discriminate.
          cbn [bind] in H. exact (append_Done_frame _ _ _ _ _ _ _ _ H).
        * exact (append_Done_frame _ _ _ _ _ _ _ _ H). }
  split; [exact Hframe|].
  split; [exact (ZB_printf_holds_string fuel tg st st' file line behind Hst H)|].
  rewrite Hframe. reflexivity.
Qed.

Lemma HardFault_ZB_printf_frame_witness :
  exists st',
    HardFault.ZB_printf 256 ILP32 one_token (str "src/main.c") 11 stray_bytes = Done st'
    /\ st' = set_buffer one_token (logger_buffer st')
    /\ sink_calls st' = [].
Proof.
  eexists.
  assert (H : HardFault.ZB_printf 256 ILP32 one_token (str "src/main.c") 11 stray_bytes
              = Done _)
    by (vm_compute; reflexivity).
  split; [exact H|].
  destruct (HardFault_ZB_printf_frame 256 ILP32 one_token _ _ _ _
              (conj eq_refl (ex_intro _ _ eq_refl)) H) as (H1 & _ & H3).
  split; [exact H1 | exact H3].
Defined.

(** [X11] A call on a buffer with no separator in its string (the all-zero
    buffer, or a string left without one) never enters the loop: it returns
    whatever the length of the token and whatever the passes allowed, the
    old contents are discarded, and the buffer holds the first 255
    characters of what the format renders, followed by zeros.  What is
    rendered is the file name, the line as ["%u"] prints it, the separator,
    and the bytes that lie behind the array [separator] up to the first
    zero byte. *)
Theorem HardFault_first_token (fuel : nat) (tg : target) (st : logger_state)
  (file : list ascii) (line : Z) (behind : list ascii) :
  len (logger_buffer st) = LOGGER_BUFFER_MAX_LENGTH ->
  HardFault.length_of_stored_log (logger_buffer st) = Done 0 ->
  let text := GetFileNameFromPath file ++ fmt_u line
              ++ HardFault.separator :: until_NUL behind in
  let kept := firstn 255 text in
  HardFault.rendered file line behind = text
  /\ HardFault.ZB_printf fuel tg st file line behind
     = Done (set_buffer st (kept ++ zero_fill (LOGGER_BUFFER_MAX_LENGTH - len kept))).
Proof.
  intros Hb H0 text kept. split; [reflexivity|].
  unfold HardFault.ZB_printf. rewrite H0. cbn [bind].
  change (0 =? 0) with true. cbv iota. rewrite (memset_all _ Hb).
  destruct (append_spec tg st (zero_fill LOGGER_BUFFER_MAX_LENGTH) 0 file line behind)
    as [Ha _]; [reflexivity | lia |].
  rewrite Ha. f_equal. f_equal.
  change (Z.to_nat (256 - 0 - 1)) with 255%nat.
  change (firstn 255 (HardFault.rendered file line behind)) with kept.
  change (zero_fill LOGGER_BUFFER_MAX_LENGTH) with ([] ++ zero_fill 256).
  change (Z.to_nat 0) with (Z.to_nat (len [])).
  rewrite mem_write_zero_tail.
  - reflexivity.
  - subst kept. unfold len. rewrite length_firstn. lia.
Qed.

Lemma HardFault_first_token_witness :
  HardFault.rendered (str "src/main.c") 10 stray_bytes
  = str "main.c10-" ++ [ascii_of_nat 9; ascii_of_nat 200]
  /\ HardFault.ZB_printf 0 ILP32 initial_state (str "src/main.c") 10 stray_bytes
     = Done (set_buffer initial_state
               (str "main.c10-" ++ [ascii_of_nat 9; ascii_of_nat 200] ++ zero_fill 245)).
Proof.
  destruct (HardFault_first_token 0 ILP32 initial_state (str "src/main.c") 10 stray_bytes)
    as [H1 H2].
  - reflexivity.
  - reflexivity.
  - split; [exact H1 | exact H2].
Defined.

(** [X12] Eviction is as small as it can be.  On a buffer that holds whole
    tokens (and stray bytes without separator behind them), a call with a
    plain token, made where no separator lies behind the array [separator],
    that does not fill the buffer to its last byte drops no token when the
    token has room, and otherwise drops, from the front, tokens up to the
    first one after which it has room: the last token dropped had to go.
    The buffer then reads as the tokens kept and the new token. *)
Theorem HardFault_evicts_no_more_than_needed (tg : target) (st : logger_state)
  (ts : list (list ascii)) (c : HardFault.call) (fuel : nat) :
  ring_holds (logger_buffer st) ts ->
  plain_call c -> quiet_call c -> token_length c <= 256 ->
  (forall ts1 ts2, ts = ts1 ++ ts2 -> len (concat ts2) + token_length c <> 256) ->
  (256 <= fuel)%nat ->
  exists ts1 ts2 st',
    ts = ts1 ++ ts2
    /\ HardFault.ZB_printf fuel tg st (HardFault.call_file c) (HardFault.call_line c)
         (HardFault.call_behind c) = Done st'
    /\ ring_holds (logger_buffer st') (ts2 ++ [token_of c])
    /\ HardFault.scan (logger_buffer st') = Done (ts2 ++ [token_of c])
    /\ (token_length c <= 256 - len (concat ts) -> ts1 = [])
    /\ (forall a u, ts1 = a ++ [u] ->
        256 - len (concat (u :: ts2)) < token_length c).
Proof.
  intros Hring Hplain Hquiet Hmax Hexact Hfuel.
  destruct (ZB_printf_ring tg st ts c fuel Hring (plain_name_no_NUL c Hplain) Hmax Hfuel)
    as (ts1 & ts2 & st' & E & Hcall & _ & Hb & Hs & Hroom & Hnone & Hmin).
  assert (Hring' : ring_holds (logger_buffer st') (ts2 ++ [token_of c])).
  { apply ring_holds_after; try assumption.
    - destruct Hring as (_ & Hwf & _). rewrite E in Hwf.
      apply Forall_app in Hwf. tauto.
    - specialize (Hexact ts1 ts2 E). lia. }
  exists ts1, ts2, st'. split; [exact E|]. split; [exact Hcall|].
  split; [exact Hring'|]. split; [exact (scan_ring _ _ Hring')|].
  split; [exact Hnone | exact Hmin].
Qed.

Lemma HardFault_evicts_no_more_than_needed_witness :
  exists st ts1 ts2 st',
    HardFault.run 256 ILP32 initial_state (repeat (main_c_10 stray_bytes) 28) = Done st
    /\ repeat (str "main.c10-") 28 = ts1 ++ ts2
    /\ HardFault.ZB_printf 256 ILP32 st (str "src/main.c") 11 stray_bytes = Done st'
    /\ HardFault.scan (logger_buffer st') = Done (ts2 ++ [str "main.c11-"])
    /\ ts1 = [str "main.c10-"]
    /\ ts2 = repeat (str "main.c10-") 27
    /\ 256 - len (concat (str "main.c10-" :: ts2)) < 9.
Proof.
  eexists.
  assert (Hrun : HardFault.run 256 ILP32 initial_state (repeat (main_c_10 stray_bytes) 28)
                 = Done _) by (vm_compute; reflexivity).
  match type of Hrun with _ = Done ?s => set (st := s) in * end.
  assert (Hring : ring_holds (logger_buffer st) (repeat (str "main.c10-") 28)).
  { split; [reflexivity|]. split.
    - apply Forall_forall. intros t Ht. apply repeat_spec in Ht. subst t.
      exists (str "main.c10"). split; [reflexivity|].
      repeat (constructor; [split; discriminate|]). constructor.
    - exists [ascii_of_nat 9; ascii_of_nat 200]. split; [vm_compute; reflexivity|].
      intros [H|[H|[]]]; discriminate. }
  destruct (HardFault_evicts_no_more_than_needed ILP32 st (repeat (str "main.c10-") 28)
              {| HardFault.call_file := str "src/main.c";
                 HardFault.call_line := 11;
                 HardFault.call_behind := stray_bytes |} 256 Hring)
    as (ts1 & ts2 & st' & E & Hcall & _ & Hscan & _ & Hmin).
  - split; [|cbn; lia].
    vm_compute. repeat (constructor; [split; discriminate|]). constructor.
  - exact stray_bytes_quiet.
  - vm_compute. discriminate.
  - intros ts1 ts2 E.
    assert (Hall : Forall (eq (str "main.c10-")) ts2).
    { apply Forall_forall. intros t Ht. symmetry.
      apply (repeat_spec 28 (str "main.c10-")). rewrite E.
      apply in_or_app. right. exact Ht. }
    assert (Hl : len (concat ts2) = 9 * Z.of_nat (length ts2)).
    { clear - Hall. induction Hall as [|t ts2 Ht Hts IH]; [reflexivity|].
      subst t. cbn [concat length]. rewrite len_app, IH.
      change (len (str "main.c10-")) with 9. lia. }
    rewrite Hl. change (token_length _) with 9. lia.
  - apply Nat.le_refl.
  - cbn [HardFault.call_file HardFault.call_line HardFault.call_behind] in Hcall.
    change (token_of _) with (str "main.c11-") in Hscan.
    change (token_length _) with 9 in Hmin.
    exists ts1, ts2, st'.
    split; [exact Hrun|]. split; [exact E|]. split; [exact Hcall|].
    split; [exact Hscan|].
    assert (Hcomp : HardFault.ZB_printf 256 ILP32 st (str "src/main.c") 11 stray_bytes
                    = Done st') by exact Hcall.
    assert (Hscan' : HardFault.scan (logger_buffer st')
                     = Done (repeat (str "main.c10-") 27 ++ [str "main.c11-"])).
    { vm_compute in Hcomp. inversion Hcomp; subst st'. vm_compute. reflexivity. }
    rewrite Hscan in Hscan'. apply Done_inj in Hscan'.
    apply (app_inj_tail ts2 (repeat (str "main.c10-") 27)) in Hscan'.
    destruct Hscan' as [E2 _]. subst ts2.
    change (repeat (str "main.c10-") 28)
      with ([str "main.c10-"] ++ repeat (str "main.c10-") 27) in E.
    apply app_inv_tail in E. subst ts1.
    split; [reflexivity|]. split; [reflexivity|].
    exact (Hmin [] (str "main.c10-") eq_refl).
Defined.

Lemma basename_twice (path : list ascii) :
  GetFileNameFromPath (GetFileNameFromPath path) = GetFileNameFromPath path.
Proof.
  destruct (basename_has_no_separator path) as [H1 H2].
  apply basename_of_plain_name; assumption.
Qed.

(** [X13] Only the last component of the file name counts: in both modes
    [ZB_printf] called with a path does what it does when called with the
    name [GetFileNameFromPath] returns for that path. *)
Theorem ZB_printf_uses_file_name_only (tg : target) (st : logger_state)
  (file : list ascii) (line : Z) :
  (forall (fuel : nat) (behind : list ascii),
      HardFault.ZB_printf fuel tg st file line behind
      = HardFault.ZB_printf fuel tg st (GetFileNameFromPath file) line behind)
  /\ (forall (lvl : Z) (function msg : list ascii),
        Logger.ZB_printf tg st lvl file function line msg
        = Logger.ZB_printf tg st lvl (GetFileNameFromPath file) function line msg).
Proof.
  split.
  - intros fuel behind.
    unfold HardFault.ZB_printf, HardFault.append, HardFault.new_log_length,
      HardFault.rendered.
    rewrite basename_twice. reflexivity.
  - intros lvl function msg.
    unfold Logger.ZB_printf, Logger.format_record, Logger.preamble.
    rewrite basename_twice. reflexivity.
Qed.

Lemma fmt_u_no_sign (line : Z) : ~ In "-"%char (fmt_u line).
Proof.
  unfold fmt_u. apply (wf_token_no_separator (decimal _)). apply decimal_token_chars.
Qed.

(** [X14] The length computed for the line number is the number of
    characters of its signed decimal form (what ["%d"] prints): one for
    zero, the digits of a positive line, a sign and the digits of a
    negative one.  ["%u"], which the line is printed with, gives that same
    form exactly when the line is not negative: for a negative line it
    prints a text without sign, another one. *)
Theorem length_of_line_counts_signed_decimal (line : Z) :
  HardFault.length_of_line line = len (fmt_d line)
  /\ (0 <= line < 2 ^ 32 -> fmt_u line = fmt_d line)
  /\ (line < 0 -> fmt_u line <> fmt_d line).
Proof.
  split; [|split].
  - unfold HardFault.length_of_line, fmt_d.
    destruct (Z.eqb_spec line 0) as [E|E].
    + subst line. reflexivity.
    + destruct (Z.ltb_spec line 0) as [Hneg|Hpos].
      * rewrite len_app, decimal_length by lia. change (len (str "-")) with 1.
        rewrite Z.abs_neq by lia. lia.
      * rewrite decimal_length by lia. rewrite Z.abs_eq by lia. lia.
  - intros H. unfold fmt_u, fmt_d. rewrite Z.mod_small by lia.
    destruct (Z.ltb_spec line 0); [lia | reflexivity].
  - intros Hneg E. apply (fmt_u_no_sign line). rewrite E. unfold fmt_d.
    destruct (Z.ltb_spec line 0); [|lia]. left. reflexivity.
Qed.

Lemma length_of_line_counts_signed_decimal_witness :
  fmt_u 1234 = fmt_d 1234 /\ fmt_u (-1) <> fmt_d (-1).
Proof.
  split.
  - apply (proj1 (proj2 (length_of_line_counts_signed_decimal 1234))). lia.
  - apply (proj2 (proj2 (length_of_line_counts_signed_decimal (-1)))). lia.
Defined.

(** [X15] A preamble that leaves no room ([len pre = 256 - sizeof_ptr]):
    the remaining space is zero, the message is not rendered at all, the
    buffer reads, as a string, the preamble and the first [sizeof_ptr - 1]
    characters of the trailer, and the sink is handed the length
    [256 mod 256 = 0]. *)
Theorem Logger_message_skipped_without_room (tg : target) (st : logger_state)
  (l : logger_levels_t) (file function : list ascii) (line : Z)
  (msg pre : list ascii) :
  len (logger_buffer st) = LOGGER_BUFFER_MAX_LENGTH ->
  level_to_int (GetCurrentLogLevel st) <= level_to_int l ->
  Logger.preamble st (Logger.desc_of l) file function line = Done pre ->
  Forall (fun c => c <> NUL) pre ->
  len pre = LOGGER_BUFFER_MAX_LENGTH - sizeof_ptr tg ->
  exists st',
    Logger.ZB_printf tg st (level_to_int l) file function line msg = Done st'
    /\ c_str (logger_buffer st')
       = Done (pre ++ firstn (Z.to_nat (sizeof_ptr tg - 1)) Logger.RESET_NEWLINE)
    /\ forall f, pfLoggerPrintf st = Some f ->
         exists c, sink_calls st' = sink_calls st ++ [c] /\ sc_len c = 0.
Proof.
  intros Hbuf Hlvl Hpre Hnp HP. unfold LOGGER_BUFFER_MAX_LENGTH in *.
  pose proof (sizeof_ptr_range tg) as Hsp.
  set (tr := firstn (Z.to_nat (sizeof_ptr tg - 1)) Logger.RESET_NEWLINE).
  assert (Htr : len tr <= sizeof_ptr tg - 1).
  { subst tr. unfold len at 1. rewrite length_firstn. lia. }
  pose proof (len_nonneg tr) as Htr0.
  assert (Hfmt : Logger.format_record tg st (level_to_int l) file function line msg
                 = Done ((pre ++ tr) ++ zero_fill (sizeof_ptr tg - len tr), len pre)).
  { unfold Logger.format_record.
    rewrite memset_all by exact Hbuf.
    rewrite logger_array_at_level. cbn [bind]. rewrite Hpre. cbn [bind].
    unfold LOGGER_BUFFER_MAX_LENGTH, Logger.sizeof_RESET_NEWLINE.
    rewrite snprintf_inside by (rewrite ?len_zero_fill; lia). cbn [bind].
    rewrite firstn_all2 by (unfold len in *; lia).
    change (zero_fill 256) with ([] ++ zero_fill 256).
    change (Z.to_nat 0) with (Z.to_nat (len [])).
    rewrite mem_write_zero_tail by lia. cbn [app].
    rewrite size_t_of_int_nonneg by lia.
    replace (256 - sizeof_ptr tg - len pre) with 0 by lia.
    change (to_size_t tg 0) with 0.
    unfold Logger.render_message. change (0 >? 0) with false. cbv iota. cbn [bind].
    rewrite size_t_of_int_nonneg by lia.
    rewrite to_size_t_small by lia.
    rewrite snprintf_inside by (rewrite ?len_app, ?len_zero_fill; lia). cbn [bind].
    replace (256 - len pre - 1) with (sizeof_ptr tg - 1) by lia. fold tr.
    rewrite mem_write_zero_tail by lia.
    replace (256 - len pre - len tr) with (sizeof_ptr tg - len tr) by lia.
    reflexivity. }
  rewrite (ZB_printf_delivers tg st l file function line msg _ _ Hlvl Hfmt).
  eexists. split; [reflexivity|].
  assert (Harg : to_uint8 (size_t_of_int tg (len pre) + sizeof_ptr tg) = 0).
  { rewrite size_t_of_int_nonneg by lia.
    replace (len pre + sizeof_ptr tg) with 256 by lia. reflexivity. }
  rewrite Harg. split.
  - assert (Hstr : c_str ((pre ++ tr) ++ zero_fill (sizeof_ptr tg - len tr))
                   = Done (pre ++ tr)).
    { rewrite zero_fill_succ by lia. apply c_str_app_NUL.
      apply Forall_app. split; [exact Hnp | apply RESET_NEWLINE_no_NUL]. }
    unfold LoggerPrintf. destruct (pfLoggerPrintf _); exact Hstr.
  - intros f Hf. unfold LoggerPrintf. cbn [set_buffer pfLoggerPrintf]. rewrite Hf.
    eexists. cbn [sink_calls sc_len]. split; reflexivity.
Qed.

Lemma Logger_message_skipped_without_room_witness :
  exists st',
    Logger.ZB_printf ILP32 sink_only (level_to_int WARN)
      (str "src/main.c") (repeat "f"%char 206) 42 (str "code=7") = Done st'
    /\ c_str (logger_buffer st')
       = Done ((Logger.ESC :: str "[33;1mMyApp[-1.0] : WARN : main.c : "
                ++ repeat "f"%char 206 ++ str " : 42 -> ")
               ++ [Logger.LF; Logger.CR; Logger.ESC]).
Proof.
  destruct (Logger_message_skipped_without_room ILP32 sink_only WARN (str "src/main.c")
              (repeat "f"%char 206) 42 (str "code=7")
              (Logger.ESC :: str "[33;1mMyApp[-1.0] : WARN : main.c : "
               ++ repeat "f"%char 206 ++ str " : 42 -> "))
    as (st' & H1 & H2 & _).
  - reflexivity.
  - vm_compute. discriminate.
  - vm_compute. reflexivity.
  - vm_compute. repeat (constructor; [discriminate|]). constructor.
  - vm_compute. reflexivity.
  - exists st'. split; [exact H1 | exact H2].
Defined.

Lemma log10_fuel_spec (fuel : nat) :
  forall n : Z,
    1 <= n < 2 ^ Z.of_nat (S fuel) ->
    10 ^ log10_fuel (S fuel) n <= n < 10 ^ (log10_fuel (S fuel) n + 1).
Proof.
  induction fuel as [|f IH]; intros n Hn.
  - change (2 ^ Z.of_nat 1) with 2 in Hn. cbn [log10_fuel].
    destruct (Z.ltb_spec n 10); [|lia]. simpl. lia.
  - remember (S f) as g eqn:Hg. cbn [log10_fuel].
    destruct (Z.ltb_spec n 10) as [Hs|Hb].
    + simpl. lia.
    + subst g.
      assert (Hq : 1 <= n / 10 < 2 ^ Z.of_nat (S f)).
      { split; [apply Z.div_le_lower_bound; lia|].
        apply Z.div_lt_upper_bound; [lia|].
        replace (Z.of_nat (S (S f))) with (Z.of_nat (S f) + 1) in Hn by lia.
        rewrite Z.pow_add_r in Hn by lia. lia. }
      specialize (IH (n / 10) Hq).
      pose proof (log10_fuel_nonneg (S f) (n / 10)) as Hk.
      pose proof (Z.div_mod n 10 ltac:(lia)) as Hdm.
      pose proof (Z.mod_pos_bound n 10 ltac:(lia)) as Hm.
      replace (1 + log10_fuel (S f) (n / 10)) with (log10_fuel (S f) (n / 10) + 1) by lia.
      rewrite !Z.pow_add_r by lia. change (10 ^ 1) with 10.
      rewrite Z.pow_add_r in IH by lia. change (10 ^ 1) with 10 in IH.
      lia.
Qed.

(** [X16] For a positive line the computed length [d] is its number of
    decimal digits: [10 ^ (d - 1) <= line < 10 ^ d]; for zero it is 1, and
    for a negative line one more than for its absolute value. *)
Theorem length_of_line_is_digit_count (line : Z) :
  (0 < line ->
   10 ^ (HardFault.length_of_line line - 1) <= line < 10 ^ HardFault.length_of_line line)
  /\ HardFault.length_of_line 0 = 1
  /\ (line < 0 ->
      HardFault.length_of_line line = HardFault.length_of_line (- line) + 1).
Proof.
  split; [|split; [reflexivity|]].
  - intros Hpos. unfold HardFault.length_of_line, floor_log10.
    destruct (Z.eqb_spec line 0); [lia|].
    destruct (Z.ltb_spec line 0); [lia|].
    rewrite Z.abs_eq by lia.
    pose proof (Z.log2_spec line Hpos) as [_ Hlt].
    pose proof (Z.log2_nonneg line) as Hl2.
    pose proof (log10_fuel_spec (Z.to_nat (Z.log2 line)) line) as Hspec.
    replace (Z.of_nat (S (Z.to_nat (Z.log2 line)))) with (Z.succ (Z.log2 line))
      in Hspec by lia.
    specialize (Hspec ltac:(lia)).
    replace (log10_fuel (S (Z.to_nat (Z.log2 line))) line + 1 + 0 - 1)
      with (log10_fuel (S (Z.to_nat (Z.log2 line))) line) by lia.
    replace (log10_fuel (S (Z.to_nat (Z.log2 line))) line + 1 + 0)
      with (log10_fuel (S (Z.to_nat (Z.log2 line))) line + 1) by lia.
    exact Hspec.
  - intros Hneg. unfold HardFault.length_of_line.
    destruct (Z.eqb_spec line 0); [lia|].
    destruct (Z.eqb_spec (- line) 0); [lia|].
    destruct (Z.ltb_spec line 0); [|lia].
    destruct (Z.ltb_spec (- line) 0); [lia|].
    rewrite Z.abs_neq, Z.abs_eq by lia. lia.
Qed.

Lemma length_of_line_is_digit_count_witness :
  10 ^ (HardFault.length_of_line 1234 - 1) <= 1234 < 10 ^ HardFault.length_of_line 1234.
Proof.
  apply (proj1 (length_of_line_is_digit_count 1234)). lia.
Defined.
